(** * Fraud detection pipeline: cleaner, rule engine and summary

    A shallow embedding of [FraudDetectionPipeline] (the "Fraud Detection
    Data Pipeline" module): [clean_data], [apply_rule_based_detection] and
    the summary built by [run_pipeline], followed by the properties the
    specification states about them.

    Modelling conventions.
    - A [DataFrame] lives in a heap of frames and is passed by reference,
      as a Python object is.  [df.copy()], [drop_duplicates], [dropna] and
      [drop] allocate a new frame; [df[name] = series] updates the frame
      in place.
    - The six source columns are kept row-wise, one [Transaction] per row,
      each cell nullable (NaN / None / NaT).  Columns added by the code are
      kept by name, one series per column, in insertion order.  A source
      column has the type its name promises, also when all its cells are
      missing: [merchant] is a text column, [amount] a numeric one.
    - Text is a [string] whose characters are the code points below 256;
      the classes [\w] and [\s] are Python's, restricted to that range.
    - An amount is a rational number: a finite float is one, and comparing
      finite floats is comparing the rationals they denote.
    - A parsed timestamp is a number of nanoseconds since the epoch, and
      the seconds between two of them a rational number.  The date parser
      of the data-frame library and the store behind [to_sql] are
      parameters of the development.
    - Logging is not modelled. *)

From Stdlib Require Import ZArith QArith Ascii String List Bool Sorted Lia.
From stdpp Require Import base option list strings gmap.

Open Scope Z_scope.

(** ** Exceptions and results *)

Inductive exn : Set :=
| ValueError      (* the date parser rejects a text *)
| TypeError       (* arithmetic on a timestamp column that holds text *)
| KeyError        (* a column that the frame does not have *)
| DanglingFrame.  (* a reference outside the heap; no Python program has one *)

Inductive Result (A : Type) : Type :=
| Ok (a : A)
| Raise (e : exn).
Arguments Ok {A} a.
Arguments Raise {A} e.

Definition result_bind {A B} (r : Result A) (k : A → Result B) : Result B :=
  match r with
  | Ok a => k a
  | Raise e => Raise e
  end.

(** A column-wise operation that may raise on a cell raises for the column. *)
Fixpoint traverse {A B} (f : A → Result B) (l : list A) : Result (list B) :=
  match l with
  | [] => Ok []
  | x :: l' =>
      result_bind (f x) (λ y, result_bind (traverse f l') (λ ys, Ok (y :: ys)))
  end.

(** ** Text *)

Module Text.

Definition code (c : ascii) : N := N_of_ascii c.

Definition between (lo hi : N) (c : ascii) : bool :=
  ((lo <=? code c) && (code c <=? hi))%N.

(** Python's [str.isspace], which is also the class [\s] of [re]. *)
Definition is_space (c : ascii) : bool :=
  between 9 13 c || between 28 32 c || between 133 133 c || between 160 160 c.

(** The class [\w] of [re] on text: alphanumeric, or the underscore. *)
Definition is_word (c : ascii) : bool :=
  between 48 57 c || between 65 90 c || between 95 95 c || between 97 122 c
  || between 170 170 c || between 178 179 c || between 181 181 c
  || between 185 186 c || between 188 190 c || between 192 214 c
  || between 216 246 c || between 248 255 c.

Fixpoint drop_while {A} (p : A → bool) (l : list A) : list A :=
  match l with
  | [] => []
  | x :: l' => if p x then drop_while p l' else l
  end.

Definition lstrip (l : list ascii) : list ascii := drop_while is_space l.
Definition rstrip (l : list ascii) : list ascii := rev (lstrip (rev l)).

(** [s.strip()] *)
Definition strip (s : string) : string :=
  string_of_list_ascii (rstrip (lstrip (list_ascii_of_string s))).

(** [re.sub(r'[^\w\s]', '', s)] *)
Definition remove_special (s : string) : string :=
  string_of_list_ascii
    (List.filter (λ c, is_word c || is_space c) (list_ascii_of_string s)).

(** Case folding as [re.IGNORECASE] applies it to a pattern of ASCII
    letters: below code point 256 only [A-Z] fold onto [a-z]. *)
Definition lower (c : ascii) : ascii :=
  if between 65 90 c then ascii_of_N (code c + 32) else c.

Definition eq_ignore_case (c d : ascii) : bool :=
  bool_decide (lower c = lower d).

(** The literal [p] matches at the start of [s], ignoring case. *)
Fixpoint match_here (p s : list ascii) : bool :=
  match p, s with
  | [], _ => true
  | _ :: _, [] => false
  | c :: p', d :: s' => eq_ignore_case c d && match_here p' s'
  end.

(** [re.search('k1|k2|...', s, re.IGNORECASE)]: scan the start positions
    from the left; at each, try the alternatives in order. *)
Fixpoint search (alts : list (list ascii)) (s : list ascii) : bool :=
  existsb (λ p, match_here p s) alts
  || match s with
     | [] => false
     | _ :: s' => search alts s'
     end.

(** The text with its letters folded, and occurrence as a substring. *)
Definition lower_string (s : string) : string :=
  string_of_list_ascii (lower <$> list_ascii_of_string s).

Definition occurs_in (k s : string) : Prop :=
  ∃ pre post : string, s = String.append pre (String.append k post).

End Text.

(** ** Data model *)

(** A cell of the [timestamp] column: missing, text as read from the
    source, or a point in time (nanoseconds since the epoch). *)
Inductive Timestamp : Set :=
| NaT
| Text (s : string)
| Instant (ns : Z).

(** One row of the six source columns; [None] is a missing value. *)
Record Transaction : Set := mkTransaction {
  transaction_id : option string;
  timestamp : Timestamp;
  amount : option Q;
  merchant : option string;
  user_id : option string;
  is_fraud : option bool
}.

Definition with_timestamp (r : Transaction) (t : Timestamp) : Transaction :=
  mkTransaction (transaction_id r) t (amount r) (merchant r) (user_id r)
    (is_fraud r).

Definition with_merchant (r : Transaction) (m : option string) : Transaction :=
  mkTransaction (transaction_id r) (timestamp r) (amount r) m (user_id r)
    (is_fraud r).

(** A column that the code adds to a frame. *)
Inductive Series : Set :=
| BoolSeries (l : list bool)
| IntSeries (l : list Z)
| TimeSeries (l : list Timestamp).

Record DataFrame : Set := mkFrame {
  rows : list Transaction;
  columns : list (string * Series)
}.

(** ** The heap of frames and the monad of the pipeline

    A computation takes the heap and gives a result or an exception,
    together with the heap it leaves (an exception does not undo the
    updates made before it). *)

Definition M (A : Type) : Type := list DataFrame → Result A * list DataFrame.

#[export] Instance M_ret : MRet M := λ A a h, (Ok a, h).
#[export] Instance M_bind : MBind M := λ A B k m h,
  match m h with
  | (Ok a, h') => k a h'
  | (Raise e, h') => (Raise e, h')
  end.

Definition lift {A} (r : Result A) : M A := λ h, (r, h).

(** A new object: its reference is the next free position of the heap. *)
Definition alloc (f : DataFrame) : M nat := λ h, (Ok (length h), h ++ [f]).

Definition read (df : nat) : M DataFrame := λ h,
  match h !! df with
  | Some f => (Ok f, h)
  | None => (Raise DanglingFrame, h)
  end.

Definition modify (df : nat) (g : DataFrame → DataFrame) : M unit := λ h,
  match h !! df with
  | Some f => (Ok tt, <[df := g f]> h)
  | None => (Raise DanglingFrame, h)
  end.

(** ** Data-frame primitives *)

(** Boolean indexing: keep the positions where the mask holds. *)
Fixpoint select {A} (mask : list bool) (l : list A) : list A :=
  match mask, l with
  | b :: mask', x :: l' => if b then x :: select mask' l' else select mask' l'
  | _, _ => []
  end.

Definition select_series (mask : list bool) (s : Series) : Series :=
  match s with
  | BoolSeries l => BoolSeries (select mask l)
  | IntSeries l => IntSeries (select mask l)
  | TimeSeries l => TimeSeries (select mask l)
  end.

Definition take_rows (mask : list bool) (f : DataFrame) : DataFrame :=
  mkFrame (select mask (rows f))
          (List.map (λ c, (c.1, select_series mask c.2)) (columns f)).

(** [duplicated(subset=['transaction_id'])], [keep='first']: a row is a
    duplicate when its key was seen in an earlier row.  Missing keys are
    equal to one another. *)
Fixpoint duplicated (seen : gset (option string)) (keys : list (option string))
  : list bool :=
  match keys with
  | [] => []
  | k :: keys' => bool_decide (k ∈ seen) :: duplicated ({[k]} ∪ seen) keys'
  end.

(** [df.drop_duplicates(subset=['transaction_id'])] *)
Definition drop_duplicates (df : nat) : M nat :=
  f ← read df;
  alloc (take_rows (negb <$> duplicated ∅ (transaction_id <$> rows f)) f).

Definition notna_timestamp (t : Timestamp) : bool :=
  match t with NaT => false | _ => true end.

Definition notna_row (r : Transaction) : bool :=
  bool_decide (is_Some (transaction_id r)) && notna_timestamp (timestamp r)
  && bool_decide (is_Some (amount r)) && bool_decide (is_Some (merchant r))
  && bool_decide (is_Some (user_id r)) && bool_decide (is_Some (is_fraud r)).

Definition notna_series (n : nat) (s : Series) : list bool :=
  match s with
  | TimeSeries l => notna_timestamp <$> l
  | _ => replicate n true
  end.

(** The rows without a missing value in any column. *)
Definition notna_mask (f : DataFrame) : list bool :=
  fold_right (zip_with andb) (notna_row <$> rows f)
    ((λ c, notna_series (length (rows f)) c.2) <$> columns f).

(** [df.dropna()] *)
Definition dropna (df : nat) : M nat :=
  f ← read df;
  alloc (take_rows (notna_mask f) f).

(** [df.copy()] *)
Definition copy (df : nat) : M nat :=
  f ← read df;
  alloc f.

(** [df['timestamp']], [df['merchant']] *)
Definition get_timestamp (df : nat) : M (list Timestamp) :=
  f ← read df; mret (timestamp <$> rows f).
Definition get_merchant (df : nat) : M (list (option string)) :=
  f ← read df; mret (merchant <$> rows f).

(** [df['timestamp'] = s], [df['merchant'] = s]; the series always comes
    from the frame it is assigned to, so the two have the same length. *)
Definition set_timestamp (df : nat) (s : list Timestamp) : M unit :=
  modify df (λ f, mkFrame (zip_with with_timestamp (rows f) s) (columns f)).
Definition set_merchant (df : nat) (s : list (option string)) : M unit :=
  modify df (λ f, mkFrame (zip_with with_merchant (rows f) s) (columns f)).

Fixpoint assoc_set {V} (name : string) (v : V) (l : list (string * V))
  : list (string * V) :=
  match l with
  | [] => [(name, v)]
  | c :: l' =>
      if bool_decide (c.1 = name) then (name, v) :: l'
      else c :: assoc_set name v l'
  end.

Fixpoint assoc_get {V} (name : string) (l : list (string * V)) : option V :=
  match l with
  | [] => None
  | c :: l' => if bool_decide (c.1 = name) then Some c.2 else assoc_get name l'
  end.

Definition assoc_del {V} (name : string) (l : list (string * V))
  : list (string * V) :=
  List.filter (λ c, negb (bool_decide (c.1 = name))) l.

(** [df[name] = s] for a column the code adds: replaced where it is, or
    appended as the last column. *)
Definition set_column (df : nat) (name : string) (s : Series) : M unit :=
  modify df (λ f, mkFrame (rows f) (assoc_set name s (columns f))).

(** [df[name]] *)
Definition get_column (df : nat) (name : string) : M Series :=
  f ← read df;
  match assoc_get name (columns f) with
  | Some s => mret s
  | None => lift (Raise KeyError)
  end.

(** [df.drop(name, axis=1)] *)
Definition drop (df : nat) (name : string) : M nat :=
  f ← read df;
  match assoc_get name (columns f) with
  | Some _ => alloc (mkFrame (rows f) (assoc_del name (columns f)))
  | None => lift (Raise KeyError)
  end.

(** ** Series operations used by the pipeline *)

(** [s.str.strip()] and [s.str.replace(r'[^\w\s]', '', regex=True)]: a
    missing value stays missing. *)
Definition str_strip (s : list (option string)) : list (option string) :=
  fmap (M:=option) Text.strip <$> s.
Definition str_replace_special (s : list (option string))
  : list (option string) :=
  fmap (M:=option) Text.remove_special <$> s.

(** [s.str.contains('|'.join(words), case=False, na=False)] *)
Definition str_contains (words : list string) (s : list (option string))
  : list bool :=
  (λ m, match m with
        | Some t => Text.search (list_ascii_of_string <$> words)
                      (list_ascii_of_string t)
        | None => false
        end) <$> s.

(** [s > bound] and [s < bound] on numbers; a missing value compares false. *)
Definition series_gt (s : list (option Q)) (bound : Q) : list bool :=
  (λ a, match a with
        | Some q => negb (Qle_bool q bound)
        | None => false
        end) <$> s.
Definition series_lt (s : list (option Q)) (bound : Q) : list bool :=
  (λ a, match a with
        | Some q => negb (Qle_bool bound q)
        | None => false
        end) <$> s.

(** [groupby('user_id')['timestamp'].shift(1)]: every row receives the
    timestamp of the row before it in its group, in the order of the rows
    of the frame; [last] holds, per user, the timestamp of the latest row
    met so far.  Rows with a missing key belong to no group. *)
Fixpoint groupby_shift (last : gmap string Timestamp) (l : list Transaction)
  : list Timestamp :=
  match l with
  | [] => []
  | r :: l' =>
      match user_id r with
      | None => NaT :: groupby_shift last l'
      | Some u =>
          default NaT (last !! u)
            :: groupby_shift (<[u := timestamp r]> last) l'
      end
  end.

Definition nanoseconds_per_second : positive := 1000000000.

(** [(t - p).total_seconds()] for one row.  Text cannot be subtracted; a
    difference with a missing side is missing. *)
Definition seconds_between (t p : Timestamp) : Result (option Q) :=
  match t, p with
  | Text _, _ | _, Text _ => Raise TypeError
  | Instant a, Instant b => Ok (Some ((a - b) # nanoseconds_per_second))
  | _, _ => Ok None
  end.

(** [(ts - prev).dt.total_seconds()] *)
Definition total_seconds_between (ts prev : list Timestamp)
  : Result (list (option Q)) :=
  traverse (λ tp, seconds_between tp.1 tp.2) (zip ts prev).

Definition high_risk_merchants : list string :=
  ["Casino"; "Gaming"; "Crypto"; "Betting"]%string.

(** The three rule columns, as functions of the rows of the frame. *)
Definition high_amount_flag (l : list Transaction) : list bool :=
  series_gt (amount <$> l) 1000.

Definition merchant_risk_flag (l : list Transaction) : list bool :=
  str_contains high_risk_merchants (merchant <$> l).

Definition prev_transaction_time (l : list Transaction) : list Timestamp :=
  groupby_shift ∅ l.

Definition time_diff (l : list Transaction) : Result (list (option Q)) :=
  total_seconds_between (timestamp <$> l) (prev_transaction_time l).

Definition rapid_transactions_flag (l : list Transaction)
  : Result (list bool) :=
  result_bind (time_diff l) (λ d, Ok (series_lt d 60)).

(** ** The pipeline *)

Record Summary : Set := mkSummary {
  total_records : Z;
  original_fraud_flags : Z;
  rule_based_flags : Z;
  high_risk_transactions : Z
}.

(** [s.sum()] on a Boolean column counts its true cells; missing cells are
    skipped. *)
Definition sum_bool (s : list bool) : Z :=
  fold_right (λ b n, Z.b2z b + n) 0 s.
Definition sum_option_bool (s : list (option bool)) : Z :=
  fold_right (λ b n, Z.b2z (default false b) + n) 0 s.

Section Pipeline.

(** The date parser of [pd.to_datetime] on one text: the instant it
    denotes, or [None] when the text is rejected.  It is taken to judge
    every text on its own, whatever the rest of the column holds. *)
Variable parse_datetime : string → option Z.

(** [df.to_sql('transactions', conn, if_exists='append', index=False)]
    with the table and index statements around it: the store accepts
    the frame or raises. *)
Variable to_sql : DataFrame → Result unit.

(** [pd.to_datetime(s)], [errors='raise']. *)
Definition to_datetime (s : list Timestamp) : Result (list Timestamp) :=
  traverse (λ t, match t with
                 | NaT => Ok NaT
                 | Instant ns => Ok (Instant ns)
                 | Text x => match parse_datetime x with
                             | Some ns => Ok (Instant ns)
                             | None => Raise ValueError
                             end
                 end) s.

(** [ingest_data]: the frame read from the input file is a new object. *)
Definition ingest_data (csv : DataFrame) : M nat := alloc csv.

Definition clean_data (df : nat) : M nat :=
  (* Remove duplicates based on transaction_id *)
  df_clean ← drop_duplicates df;
  (* Convert timestamp to datetime *)
  ts ← get_timestamp df_clean;
  ts ← lift (to_datetime ts);
  set_timestamp df_clean ts;;
  (* Handle missing values *)
  df_clean ← dropna df_clean;
  (* Standardize merchant names *)
  m ← get_merchant df_clean;
  set_merchant df_clean (str_strip m);;
  m ← get_merchant df_clean;
  set_merchant df_clean (str_replace_special m);;
  mret df_clean.

Definition apply_rule_based_detection (df : nat) : M nat :=
  (* Create a copy to avoid modifying original data *)
  df_processed ← copy df;
  f ← read df_processed;
  (* Rule 1 *)
  let high_amount_flag := high_amount_flag (rows f) in
  (* Rule 2 *)
  let merchant_risk_flag := merchant_risk_flag (rows f) in
  (* Rule 3 *)
  set_column df_processed "prev_transaction_time"
    (TimeSeries (groupby_shift ∅ (rows f)));;
  ts ← get_timestamp df_processed;
  prev ← get_column df_processed "prev_transaction_time";
  time_diff ← lift (match prev with
                    | TimeSeries p => total_seconds_between ts p
                    | _ => Raise TypeError
                    end);
  let rapid_transactions_flag := series_lt time_diff 60 in
  (* Combine rules *)
  set_column df_processed "rule_based_fraud_flag"
    (BoolSeries (zip_with orb (zip_with orb high_amount_flag
                                 merchant_risk_flag)
                   rapid_transactions_flag));;
  (* Calculate fraud score *)
  set_column df_processed "fraud_score"
    (IntSeries (zip_with Z.add (zip_with Z.add (Z.b2z <$> high_amount_flag)
                                  (Z.b2z <$> merchant_risk_flag))
                  (Z.b2z <$> rapid_transactions_flag)));;
  (* Drop temporary column *)
  df_processed ← drop df_processed "prev_transaction_time";
  mret df_processed.

Definition store_in_database (df : nat) : M unit :=
  f ← read df;
  lift (to_sql f).

(** The summary statistics of [run_pipeline]. *)
Definition summary_statistics (df_processed : nat) : M Summary :=
  f ← read df_processed;
  flag ← get_column df_processed "rule_based_fraud_flag";
  score ← get_column df_processed "fraud_score";
  match flag, score with
  | BoolSeries flag, IntSeries score =>
      mret (mkSummary (Z.of_nat (length (rows f)))
              (sum_option_bool (is_fraud <$> rows f))
              (sum_bool flag)
              (sum_bool ((λ s, 2 <=? s) <$> score)))
  | _, _ => lift (Raise TypeError)
  end.

Definition run_pipeline (csv : DataFrame) : M Summary :=
  df ← ingest_data csv;
  df_clean ← clean_data df;
  df_processed ← apply_rule_based_detection df_clean;
  store_in_database df_processed;;
  summary_statistics df_processed.

End Pipeline.

(** ** Records handed to the sink, and the stages as functions of rows *)

(** One scored row: the six source columns and the two columns that the
    rule engine adds. *)
Record ScoredTransaction : Set := mkScored {
  transaction : Transaction;
  rule_based_fraud_flag : bool;
  fraud_score : Z
}.

Fixpoint zip3 (l : list Transaction) (flag : list bool) (score : list Z)
  : list ScoredTransaction :=
  match l, flag, score with
  | r :: l', b :: flag', n :: score' => mkScored r b n :: zip3 l' flag' score'
  | _, _, _ => []
  end.

(** The rows of a scored frame, as the sink receives them. *)
Definition to_records (df : nat) : M (list ScoredTransaction) :=
  f ← read df;
  flag ← get_column df "rule_based_fraud_flag";
  score ← get_column df "fraud_score";
  match flag, score with
  | BoolSeries flag, IntSeries score => mret (zip3 (rows f) flag score)
  | _, _ => lift (Raise TypeError)
  end.

(** The result of a computation started on the empty heap. *)
Definition run {A} (m : M A) : Result A := (m []).1.

(** A frame with the six source columns only. *)
Definition source_frame (l : list Transaction) : DataFrame := mkFrame l [].

(** The Cleaner on a batch of rows: [clean_data] run on a new frame. *)
Definition clean (parse_datetime : string → option Z) (l : list Transaction)
  : Result (list Transaction) :=
  run (df ← alloc (source_frame l);
       df_clean ← clean_data parse_datetime df;
       f ← read df_clean;
       mret (rows f)).

(** The Rule Engine on a batch of rows. *)
Definition score (l : list Transaction) : Result (list ScoredTransaction) :=
  run (df ← alloc (source_frame l);
       df_processed ← apply_rule_based_detection df;
       to_records df_processed).

(** The Summary Reporter on the rows of a frame, read off [run_pipeline]. *)
Definition summarize (l : list Transaction) : Result Summary :=
  run (df ← alloc (source_frame l);
       df_processed ← apply_rule_based_detection df;
       summary_statistics df_processed).

(** ** Notions used to state the properties *)

(** The rows that [drop_duplicates] keeps when the keys in [seen] were
    met before, and the rows it keeps of a whole frame. *)
Definition unseen (seen : gset (option string)) (l : list Transaction)
  : list Transaction :=
  select (negb <$> duplicated seen (transaction_id <$> l)) l.

Definition first_occurrences (l : list Transaction) : list Transaction :=
  unseen ∅ l.

Definition deduplicated (f : DataFrame) : DataFrame :=
  take_rows (negb <$> duplicated ∅ (transaction_id <$> rows f)) f.

(** What [to_datetime] makes of a cell when it does not raise. *)
Definition converted (parse_datetime : string → option Z) (t : Timestamp)
  : Timestamp :=
  match t with
  | Text x => match parse_datetime x with
              | Some ns => Instant ns
              | None => NaT
              end
  | _ => t
  end.

(** The merchant of a row after the two assignments of [clean_data]. *)
Definition normalized (r : Transaction) : Transaction :=
  with_merchant r (Text.remove_special <$> (Text.strip <$> merchant r)).

(** A surviving row as the Cleaner returns it. *)
Definition cleaned (parse_datetime : string → option Z) (r : Transaction)
  : Transaction :=
  normalized (with_timestamp r (converted parse_datetime (timestamp r))).

Definition normalized_frame (f : DataFrame) : DataFrame :=
  mkFrame (normalized <$> rows f) (columns f).

(** The row has no missing value once its timestamp is converted:
    [dropna] keeps it. *)
Definition survives (parse_datetime : string → option Z) (r : Transaction)
  : bool :=
  notna_row (with_timestamp r (converted parse_datetime (timestamp r))).

(** The row after one more [strip] of its merchant. *)
Definition restripped (r : Transaction) : Transaction :=
  with_merchant r (Text.strip <$> merchant r).

(** A date parser given by the finite table of the texts it accepts. *)
Definition table_parser (table : list (string * Z)) (x : string) : option Z :=
  assoc_get x table.

(** The map [last] of [groupby_shift] once the rows of [l] are met. *)
Definition seen_after (last : gmap string Timestamp) (l : list Transaction)
  : gmap string Timestamp :=
  foldl (λ m r, match user_id r with
                | Some u => <[u := timestamp r]> m
                | None => m
                end) last l.

(** The verdict of rule R3 on one row, from its timestamp and the one
    assigned to it as [prev_transaction_time]. *)
Definition rapid_after (p t : Z) : bool :=
  bool_decide (t - p < 60 * Z.pos nanoseconds_per_second).

(** ** Rule R3 as the specification words it

    "Sorting that user's records by timestamp ascending and taking
    positional predecessor", ties broken by input order. *)

Definition instant_of (t : Timestamp) : Z :=
  match t with
  | Instant ns => ns
  | _ => 0
  end.

(** The records of user [u], each with its position in the input (counted
    from [i]) and its time, in input order. *)
Fixpoint records_of (u : option string) (i : nat) (l : list Transaction)
  : list (nat * Z) :=
  match l with
  | [] => []
  | r :: l' =>
      if bool_decide (user_id r = u)
      then (i, instant_of (timestamp r)) :: records_of u (S i) l'
      else records_of u (S i) l'
  end.

(** Stable insertion sort by time: a record is placed before the first
    record that is not earlier than it, hence before the records of the
    same time that follow it in the input. *)
Fixpoint insert_by_time (x : nat * Z) (s : list (nat * Z)) : list (nat * Z) :=
  match s with
  | [] => [x]
  | y :: s' => if x.2 <=? y.2 then x :: s else y :: insert_by_time x s'
  end.

Definition sort_by_time (s : list (nat * Z)) : list (nat * Z) :=
  foldr insert_by_time [] s.

(** The time of the record just before the one of position [i]. *)
Fixpoint predecessor_time (i : nat) (s : list (nat * Z)) : option Z :=
  match s with
  | [] => None
  | a :: s' =>
      match s' with
      | [] => None
      | b :: _ =>
          if bool_decide (b.1 = i) then Some a.2 else predecessor_time i s'
      end
  end.

Definition sorted_predecessor_time (l : list Transaction) (i : nat)
  : option Z :=
  r ← l !! i;
  predecessor_time i (sort_by_time (records_of (user_id r) 0 l)).

Definition sorted_rapid_flag (l : list Transaction) (i : nat) : option bool :=
  r ← l !! i;
  Some (match sorted_predecessor_time l i with
        | Some p => rapid_after p (instant_of (timestamp r))
        | None => false
        end).

(** Every user's records occur in the input in the order of their times. *)
Definition per_user_time_order (l : list Transaction) : Prop :=
  ∀ i j ri rj,
    (i < j)%nat → l !! i = Some ri → l !! j = Some rj →
    user_id ri = user_id rj →
    instant_of (timestamp ri) ≤ instant_of (timestamp rj).

(** The row has a user and a parsed timestamp. *)
Definition keyed (r : Transaction) : Prop :=
  (∃ u, user_id r = Some u) ∧ (∃ ns, timestamp r = Instant ns).

(** The number of elements that satisfy [p]. *)
Definition count_where {A} (p : A → bool) (l : list A) : Z :=
  Z.of_nat (length (List.filter p l)).

(** ** Sample data: the end-to-end scenario of the specification *)

Definition t0 : Z := 1704067200000000000.

(** A parser that accepts the two timestamps of the scenario. *)
Definition sample_parser : string → option Z :=
  table_parser [("2024-01-01 00:00:00"%string, t0);
                ("2024-01-01 00:00:30"%string, t0 + 30000000000)].

Definition txn_A : Transaction :=
  mkTransaction (Some "A"%string) (Text "2024-01-01 00:00:00") (Some 1500%Q)
    (Some "Casino Royale"%string) (Some "U1"%string) (Some false).

Definition txn_B : Transaction :=
  mkTransaction (Some "B"%string) (Text "2024-01-01 00:00:30") (Some 5%Q)
    (Some "Coffee Shop"%string) (Some "U1"%string) (Some false).

Definition scenario : list Transaction := [txn_A; txn_A; txn_B].

Definition scenario_cleaned : list Transaction :=
  [with_timestamp txn_A (Instant t0);
   with_timestamp txn_B (Instant (t0 + 30000000000))].

Definition scenario_scored : list ScoredTransaction :=
  [mkScored (with_timestamp txn_A (Instant t0)) true 2;
   mkScored (with_timestamp txn_B (Instant (t0 + 30000000000))) true 1].

(** A complete row with the given merchant. *)
Definition acme (m : string) : Transaction :=
  mkTransaction (Some "A"%string) (Instant t0) (Some 5%Q) (Some m)
    (Some "U1"%string) (Some false).

(** A complete row of user [U1], [s] seconds after [t0]. *)
Definition u1_at (id : string) (s : Z) : Transaction :=
  mkTransaction (Some id)
    (Instant (t0 + s * Z.pos nanoseconds_per_second)) (Some 5%Q)
    (Some "Coffee Shop"%string) (Some "U1"%string) (Some false).

(** ** The columns that the rule engine computes *)

Definition combined_flag (l : list Transaction) (rapid : list bool)
  : list bool :=
  zip_with orb (zip_with orb (high_amount_flag l) (merchant_risk_flag l)) rapid.

Definition combined_score (l : list Transaction) (rapid : list bool)
  : list Z :=
  zip_with Z.add
    (zip_with Z.add (Z.b2z <$> high_amount_flag l)
       (Z.b2z <$> merchant_risk_flag l))
    (Z.b2z <$> rapid).

(** The columns of the frame once [prev_transaction_time] is assigned, and
    once the flag and the score are. *)
Definition with_prev (f : DataFrame) : list (string * Series) :=
  assoc_set "prev_transaction_time"
    (TimeSeries (prev_transaction_time (rows f))) (columns f).

Definition with_scores (f : DataFrame) (rapid : list bool)
  : list (string * Series) :=
  assoc_set "fraud_score" (IntSeries (combined_score (rows f) rapid))
    (assoc_set "rule_based_fraud_flag"
       (BoolSeries (combined_flag (rows f) rapid)) (with_prev f)).

(** ** Notions used to state the further properties *)

(** What the Rule Engine reads of a row. *)
Definition scoring_view (r : Transaction)
  : option Q * option string * option string * Timestamp :=
  (amount r, merchant r, user_id r, timestamp r).

(** The frame that the Rule Engine returns for the rows [l] of a source
    frame, [rapid] being the column of rule R3. *)
Definition scored_frame (l : list Transaction) (rapid : list bool)
  : DataFrame :=
  mkFrame l
    [("rule_based_fraud_flag"%string, BoolSeries (combined_flag l rapid));
     ("fraud_score"%string, IntSeries (combined_score l rapid))].

(** The summary that [run_pipeline] builds from that frame. *)
Definition summary_of (l : list Transaction) (rapid : list bool) : Summary :=
  mkSummary (Z.of_nat (length l))
    (sum_option_bool (is_fraud <$> l))
    (sum_bool (combined_flag l rapid))
    (sum_bool ((λ n, 2 <=? n) <$> combined_score l rapid)).

(** A character that [clean_data] keeps in a merchant. *)
Definition kept_character (c : ascii) : Prop :=
  Text.is_word c = true ∨ Text.is_space c = true.

(** Sample rows: a first occurrence without amount followed by a complete
    row of the same identifier, and a merchant with special characters. *)
Definition txn_A_no_amount : Transaction :=
  mkTransaction (Some "A"%string) (Text "2024-01-01 00:00:00") None
    (Some "Casino Royale"%string) (Some "U1"%string) (Some false).

Definition txn_C : Transaction :=
  mkTransaction (Some "C"%string) (Text "2024-01-01 00:00:30") (Some 5%Q)
    (Some " - Acme, Inc. "%string) (Some "U2"%string) (Some true).

(** A row without user, [s] seconds after [t0]. *)
Definition anonymous_at (id : string) (s : Z) : Transaction :=
  mkTransaction (Some id)
    (Instant (t0 + s * Z.pos nanoseconds_per_second)) (Some 5%Q)
    (Some "Coffee Shop"%string) None (Some false).

(** ** Text beyond code point 255

    [re.search] on a text of arbitrary code points, for a pattern that is
    an alternation of words in ASCII letters, as [high_risk_merchants]
    is. *)

Module Unicode.

(** The code points of a text of the 8-bit model. *)
Definition of_string (s : string) : list N :=
  N_of_ascii <$> list_ascii_of_string s.

(** ASCII case folding: [A-Z] onto [a-z], every other code point kept. *)
Definition lower (c : N) : N :=
  if ((65 <=? c) && (c <=? 90))%N then (c + 32)%N else c.

(** Case folding as [re.IGNORECASE] applies it where the pattern is an
    ASCII letter.  Besides the two cases of the letter, [i] matches
    U+0130 and U+0131, [s] matches U+017F and [k] matches U+212A; no other
    code point matches an ASCII letter. *)
Definition fold (c : N) : N :=
  if ((65 <=? c) && (c <=? 90))%N then (c + 32)%N
  else if ((c =? 304) || (c =? 305))%N then 105%N
  else if (c =? 383)%N then 115%N
  else if (c =? 8490)%N then 107%N
  else c.

(** The word [p] matches at the start of [s], characters compared after
    the folding [f]. *)
Fixpoint match_here (f : N → N) (p s : list N) : bool :=
  match p, s with
  | [], _ => true
  | _ :: _, [] => false
  | c :: p', d :: s' => bool_decide (f c = f d) && match_here f p' s'
  end.

Fixpoint search (f : N → N) (alts : list (list N)) (s : list N) : bool :=
  existsb (λ p, match_here f p s) alts
  || match s with
     | [] => false
     | _ :: s' => search f alts s'
     end.

(** [t.str.contains('|'.join(words), case=False)] on one text. *)
Definition contains (words : list string) (t : list N) : bool :=
  search fold (of_string <$> words) t.

(** One of the words occurs in the text as a substring, characters
    compared after the folding [f]. *)
Definition occurs (f : N → N) (words : list string) (t : list N) : Prop :=
  ∃ k pre post,
    k ∈ words ∧ f <$> t = pre ++ (f <$> of_string k) ++ post.

End Unicode.

(** The merchant BETT(U+0130)NG Co, with a capital I with dot above, and
    what Python's [str.lower] makes of it: U+0069 U+0307 for U+0130. *)
Definition betting_dotted : list N :=
  [66; 69; 84; 84; 304; 78; 71; 32; 67; 111]%N.

Definition betting_dotted_lowered : list N :=
  [98; 101; 116; 116; 105; 775; 110; 103; 32; 99; 111]%N.

(** ** The records that the Cleaner keeps, by position *)

(** No record before position [i] has the identifier of [r]. *)
Definition first_with_its_id (l : list Transaction) (i : nat)
    (r : Transaction) : Prop :=
  ∀ j r', (j < i)%nat → l !! j = Some r' →
          transaction_id r' ≠ transaction_id r.

(** The mask of the rows that the Cleaner keeps: not a duplicate, and no
    missing value once the timestamp is converted. *)
Definition kept_mask (parse_datetime : string → option Z)
    (l : list Transaction) : list bool :=
  zip_with andb (negb <$> duplicated ∅ (transaction_id <$> l))
    (survives parse_datetime <$> l).

(** * Properties *)

(** ** Running the primitives *)

Lemma bind_run {A B} (m : M A) (k : A → M B) (h : list DataFrame) :
  (m ≫= k) h = match m h with
               | (Ok a, h') => k a h'
               | (Raise e, h') => (Raise e, h')
               end.
Proof. reflexivity. Qed.

Lemma read_run (df : nat) (f : DataFrame) (h : list DataFrame) :
  h !! df = Some f → read df h = (Ok f, h).
Proof. intros Hf. unfold read. by rewrite Hf. Qed.

Lemma modify_run (df : nat) (g : DataFrame → DataFrame) (f : DataFrame)
    (h : list DataFrame) :
  h !! df = Some f → modify df g h = (Ok tt, <[df := g f]> h).
Proof. intros Hf. unfold modify. by rewrite Hf. Qed.

Lemma lookup_snoc (h : list DataFrame) (f : DataFrame) :
  (h ++ [f]) !! length h = Some f.
Proof. by rewrite list_lookup_middle. Qed.

Lemma insert_snoc (h : list DataFrame) (f g : DataFrame) :
  <[length h := g]> (h ++ [f]) = h ++ [g].
Proof.
  rewrite insert_app_r_alt by lia. by rewrite Nat.sub_diag.
Qed.

(** Reading and updating the frame that was allocated last. *)
Lemma read_last (h : list DataFrame) (f : DataFrame) :
  read (length h) (h ++ [f]) = (Ok f, h ++ [f]).
Proof. apply read_run, lookup_snoc. Qed.

Lemma modify_last (g : DataFrame → DataFrame) (h : list DataFrame)
    (f : DataFrame) :
  modify (length h) g (h ++ [f]) = (Ok tt, h ++ [g f]).
Proof.
  rewrite (modify_run _ _ f) by apply lookup_snoc. by rewrite insert_snoc.
Qed.

(** ** Lists, masks and association lists *)

Lemma zip_with_fmap_r {A B C} (g : A → B → C) (k : A → B) (l : list A) :
  zip_with g l (k <$> l) = (λ x, g x (k x)) <$> l.
Proof. induction l as [|x l IH]; simpl; [done|]. f_equal. apply IH. Qed.

Lemma select_fmap {A B} (g : A → B) (mask : list bool) (l : list A) :
  select mask (g <$> l) = g <$> select mask l.
Proof.
  revert l. induction mask as [|b mask IH]; intros [|x l]; csimpl; try done.
  destruct b; csimpl; by rewrite IH.
Qed.

Lemma select_sublist {A} (mask : list bool) (l : list A) :
  sublist (select mask l) l.
Proof.
  revert l. induction mask as [|b mask IH]; intros [|x l]; simpl;
    try apply sublist_nil_l.
  destruct b; [apply sublist_skip | apply sublist_cons]; apply IH.
Qed.

Lemma select_filter {A} (p : A → bool) (l : list A) :
  select (p <$> l) l = List.filter p l.
Proof.
  induction l as [|x l IH]; csimpl; [done|]. destruct (p x); by rewrite IH.
Qed.

Lemma select_all {A} (mask : list bool) (l : list A) :
  length mask = length l → Forall (λ b, b = true) mask → select mask l = l.
Proof.
  revert l. induction mask as [|b mask IH]; intros [|x l] Hlen Hall;
    simpl in *; try done.
  inversion Hall as [|?? -> Hall']; subst. f_equal. apply IH; [lia | done].
Qed.

Lemma assoc_get_set_eq {V} (name : string) (v : V) (l : list (string * V)) :
  assoc_get name (assoc_set name v l) = Some v.
Proof.
  induction l as [|c l IH]; simpl.
  - by rewrite bool_decide_eq_true_2.
  - destruct (bool_decide (c.1 = name)) eqn:E; simpl.
    + by rewrite bool_decide_eq_true_2.
    + by rewrite E.
Qed.

Lemma assoc_get_set_ne {V} (name other : string) (v : V)
    (l : list (string * V)) :
  name ≠ other → assoc_get name (assoc_set other v l) = assoc_get name l.
Proof.
  intros Hne. induction l as [|c l IH]; simpl.
  - by rewrite bool_decide_eq_false_2.
  - destruct (bool_decide (c.1 = other)) eqn:E; simpl.
    + apply bool_decide_eq_true_1 in E.
      rewrite !bool_decide_eq_false_2; [done | congruence | done].
    + by rewrite IH.
Qed.

Lemma assoc_set_fresh {V} (name : string) (v : V) (l : list (string * V)) :
  assoc_get name l = None → assoc_set name v l = l ++ [(name, v)].
Proof.
  induction l as [|c l IH]; simpl; [done|].
  destruct (bool_decide (c.1 = name)); [done|]. intros H. by rewrite IH.
Qed.

Lemma assoc_get_app_fresh {V} (name other : string) (v : V)
    (l : list (string * V)) :
  name ≠ other → assoc_get name (l ++ [(other, v)]) = assoc_get name l.
Proof.
  intros Hne. induction l as [|c l IH]; simpl.
  - by rewrite bool_decide_eq_false_2.
  - by rewrite IH.
Qed.

Lemma assoc_del_fresh {V} (name : string) (l : list (string * V)) :
  assoc_get name l = None → assoc_del name l = l.
Proof.
  unfold assoc_del. induction l as [|c l IH]; simpl; [done|].
  destruct (bool_decide (c.1 = name)); [done|]. intros H. simpl.
  by rewrite IH.
Qed.

(** ** Stepping through a computation *)

Lemma bind_assoc {A B C} (m : M A) (k1 : A → M B) (k2 : B → M C)
    (h : list DataFrame) :
  ((m ≫= k1) ≫= k2) h = (m ≫= (λ a, k1 a ≫= k2)) h.
Proof.
  rewrite !bind_run. destruct (m h) as [[a|e] h']; [|done].
  by rewrite bind_run.
Qed.

Lemma ret_bind {A B} (a : A) (k : A → M B) (h : list DataFrame) :
  (mret a ≫= k) h = k a h.
Proof. done. Qed.

Lemma ret_run {A} (a : A) (h : list DataFrame) :
  (mret a : M A) h = (Ok a, h).
Proof. done. Qed.

Lemma lift_bind {A B} (r : Result A) (k : A → M B) (h : list DataFrame) :
  (lift r ≫= k) h = match r with
                    | Ok a => k a h
                    | Raise e => (Raise e, h)
                    end.
Proof. by destruct r. Qed.

Lemma alloc_bind {B} (f : DataFrame) (k : nat → M B) (h : list DataFrame) :
  (alloc f ≫= k) h = k (length h) (h ++ [f]).
Proof. done. Qed.

Lemma read_bind {B} (df : nat) (f : DataFrame) (k : DataFrame → M B)
    (h : list DataFrame) :
  h !! df = Some f → (read df ≫= k) h = k f h.
Proof. intros Hf. by rewrite bind_run, (read_run _ _ _ Hf). Qed.

Lemma read_last_bind {B} (f : DataFrame) (k : DataFrame → M B)
    (h : list DataFrame) :
  (read (length h) ≫= k) (h ++ [f]) = k f (h ++ [f]).
Proof. apply read_bind, lookup_snoc. Qed.

Lemma modify_last_bind {B} (g : DataFrame → DataFrame) (f : DataFrame)
    (k : unit → M B) (h : list DataFrame) :
  (modify (length h) g ≫= k) (h ++ [f]) = k tt (h ++ [g f]).
Proof. by rewrite bind_run, modify_last. Qed.

(** ** The Cleaner as a function of the frame *)

Lemma normalized_twice (l : list Transaction) :
  zip_with with_merchant
    (zip_with with_merchant l (str_strip (merchant <$> l)))
    (str_replace_special
       (merchant <$> zip_with with_merchant l (str_strip (merchant <$> l))))
  = normalized <$> l.
Proof.
  unfold str_strip, str_replace_special.
  induction l as [|r l IH]; csimpl; [done|]. f_equal. apply IH.
Qed.

Lemma clean_data_run (parse_datetime : string → option Z) (df : nat)
    (f : DataFrame) (h : list DataFrame) :
  h !! df = Some f →
  clean_data parse_datetime df h =
    match to_datetime parse_datetime (timestamp <$> rows (deduplicated f)) with
    | Raise e => (Raise e, h ++ [deduplicated f])
    | Ok ts =>
        let f2 := mkFrame (zip_with with_timestamp (rows (deduplicated f)) ts)
                    (columns (deduplicated f)) in
        (Ok (S (length h)),
         h ++ [f2; normalized_frame (take_rows (notna_mask f2) f2)])
    end.
Proof.
  intros Hf.
  unfold clean_data, drop_duplicates, dropna, get_timestamp, get_merchant,
    set_timestamp, set_merchant.
  rewrite bind_assoc, (read_bind _ _ _ _ Hf), alloc_bind.
  rewrite bind_assoc, read_last_bind, ret_bind, lift_bind.
  fold (deduplicated f).
  destruct (to_datetime _ _) as [ts|e]; [|done].
  rewrite modify_last_bind.
  rewrite bind_assoc, read_last_bind, alloc_bind.
  do 2 rewrite bind_assoc, read_last_bind, ret_bind, modify_last_bind.
  rewrite ret_run, !length_app, <- app_assoc. simpl.
  rewrite normalized_twice, Nat.add_1_r. done.
Qed.

Lemma filter_fmap {A B} (p : B → bool) (g : A → B) (l : list A) :
  List.filter p (g <$> l) = g <$> List.filter (λ x, p (g x)) l.
Proof.
  induction l as [|x l IH]; csimpl; [done|].
  destruct (p (g x)); csimpl; by rewrite IH.
Qed.

Lemma traverse_cons_ok {A B} (f : A → Result B) (x : A) (l : list A)
    (ys : list B) :
  traverse f (x :: l) = Ok ys →
  ∃ y ys', f x = Ok y ∧ traverse f l = Ok ys' ∧ ys = y :: ys'.
Proof.
  simpl. destruct (f x) as [y|e]; simpl; [|done].
  destruct (traverse f l) as [ys'|e]; simpl; [|done].
  intros [= <-]. eauto.
Qed.

Lemma traverse_raise_here {A B} (f : A → Result B) (x : A) (l : list A)
    (e : exn) :
  f x = Raise e → traverse f (x :: l) = Raise e.
Proof. intros E. simpl. by rewrite E. Qed.

Lemma traverse_length {A B} (f : A → Result B) (l : list A) (ys : list B) :
  traverse f l = Ok ys → length ys = length l.
Proof.
  revert ys. induction l as [|x l IH]; intros ys.
  - by intros [= <-].
  - intros (y & ys' & _ & Hl & ->)%traverse_cons_ok. simpl. f_equal. eauto.
Qed.

Lemma to_datetime_converted (parse_datetime : string → option Z)
    (s ts : list Timestamp) :
  to_datetime parse_datetime s = Ok ts → ts = converted parse_datetime <$> s.
Proof.
  unfold to_datetime. revert ts. induction s as [|t s IH]; intros ts.
  - by intros [= <-].
  - intros (y & ys' & Ht & Hs & ->)%traverse_cons_ok. csimpl.
    f_equal; [|by apply IH].
    destruct t as [|x|ns]; simpl in *; try congruence.
    destruct (parse_datetime x); congruence.
Qed.

Lemma to_datetime_raises (parse_datetime : string → option Z)
    (s : list Timestamp) (x : string) :
  Text x ∈ s → parse_datetime x = None →
  to_datetime parse_datetime s = Raise ValueError.
Proof.
  intros Hin Hx. induction s as [|t s IH]; [by apply elem_of_nil in Hin|].
  apply elem_of_cons in Hin as [<-|Hin].
  - apply traverse_raise_here. by rewrite Hx.
  - specialize (IH Hin). unfold to_datetime in *. simpl. rewrite IH.
    destruct t as [|y|ns]; simpl; try done.
    by destruct (parse_datetime y).
Qed.

Lemma to_datetime_succeeds (parse_datetime : string → option Z)
    (s : list Timestamp) :
  (∀ x, Text x ∈ s → is_Some (parse_datetime x)) →
  to_datetime parse_datetime s = Ok (converted parse_datetime <$> s).
Proof.
  induction s as [|t s IH]; intros Hall; [done|].
  unfold to_datetime in *. simpl.
  rewrite IH by (intros x Hx; apply Hall; by right).
  destruct t as [|x|ns]; simpl; try done.
  destruct (Hall x) as [ns ->]; [by left | done].
Qed.

Lemma clean_run (parse_datetime : string → option Z) (l : list Transaction) :
  clean parse_datetime l =
    result_bind (to_datetime parse_datetime (timestamp <$> first_occurrences l))
      (λ ts, Ok (normalized <$>
                   List.filter notna_row
                     (zip_with with_timestamp (first_occurrences l) ts))).
Proof.
  unfold clean, run. rewrite alloc_bind, bind_run.
  rewrite (clean_data_run _ _ (source_frame l)) by apply lookup_snoc.
  change (rows (deduplicated (source_frame l))) with (first_occurrences l).
  destruct (to_datetime _ _) as [ts|e]; [|done].
  simpl. do 2 f_equal. apply select_filter.
Qed.

Lemma clean_ok (parse_datetime : string → option Z)
    (l out : list Transaction) :
  clean parse_datetime l = Ok out →
  out = cleaned parse_datetime
          <$> List.filter (survives parse_datetime) (first_occurrences l).
Proof.
  rewrite clean_run.
  destruct (to_datetime _ _) as [ts|e] eqn:E; simpl; [|done].
  intros [= <-]. apply to_datetime_converted in E as ->.
  rewrite <- list_fmap_compose, zip_with_fmap_r, filter_fmap.
  by rewrite <- list_fmap_compose.
Qed.

(** ** Deduplication *)

Lemma unseen_cons (seen : gset (option string)) (r : Transaction)
    (l : list Transaction) :
  unseen seen (r :: l) =
    if bool_decide (transaction_id r ∈ seen)
    then unseen ({[transaction_id r]} ∪ seen) l
    else r :: unseen ({[transaction_id r]} ∪ seen) l.
Proof. unfold unseen. csimpl. by destruct (bool_decide _). Qed.

Lemma unseen_sublist (seen : gset (option string)) (l : list Transaction) :
  sublist (unseen seen l) l.
Proof. apply select_sublist. Qed.

Lemma unseen_fresh (seen : gset (option string)) (l : list Transaction)
    (r : Transaction) :
  r ∈ unseen seen l → transaction_id r ∉ seen.
Proof.
  revert seen. induction l as [|x l IH]; intros seen.
  - by intros ?%elem_of_nil.
  - rewrite unseen_cons. case_bool_decide as Hx.
    + intros Hr%IH. set_solver.
    + intros [->|Hr%IH]%elem_of_cons; set_solver.
Qed.

Lemma unseen_NoDup (seen : gset (option string)) (l : list Transaction) :
  NoDup (transaction_id <$> unseen seen l).
Proof.
  revert seen. induction l as [|x l IH]; intros seen.
  - constructor.
  - rewrite unseen_cons. case_bool_decide as Hx; [apply IH|].
    csimpl. apply NoDup_cons. split; [|apply IH].
    intros (r & Hid & Hr%unseen_fresh)%list_elem_of_fmap. set_solver.
Qed.

(** A kept row is the first row of the frame with its identifier. *)
Lemma unseen_first (seen : gset (option string)) (l : list Transaction)
    (r : Transaction) :
  r ∈ unseen seen l →
  ∃ l1 l2, l = l1 ++ r :: l2
           ∧ ∀ r', r' ∈ l1 → transaction_id r' ≠ transaction_id r.
Proof.
  revert seen. induction l as [|x l IH]; intros seen.
  - by intros ?%elem_of_nil.
  - rewrite unseen_cons. intros Hr.
    assert (r ∈ unseen ({[transaction_id x]} ∪ seen) l
            → ∃ l1 l2, x :: l = l1 ++ r :: l2
                ∧ ∀ r', r' ∈ l1 → transaction_id r' ≠ transaction_id r)
      as Hlater.
    { intros Hin. destruct (IH _ Hin) as (l1 & l2 & -> & Hfirst).
      exists (x :: l1), l2. split; [done|].
      intros r' [->|Hr']%elem_of_cons; [|by apply Hfirst].
      apply unseen_fresh in Hin. set_solver. }
    case_bool_decide as Hx; [by apply Hlater|].
    apply elem_of_cons in Hr as [->|Hr]; [|by apply Hlater].
    exists [], l. split; [done|]. by intros r' ?%elem_of_nil.
Qed.

(** Identifiers that are pairwise different and new: nothing is dropped. *)
Lemma unseen_all (seen : gset (option string)) (l : list Transaction) :
  NoDup (transaction_id <$> l) →
  (∀ r, r ∈ l → transaction_id r ∉ seen) →
  unseen seen l = l.
Proof.
  revert seen. induction l as [|x l IH]; intros seen Hnd Hnew; [done|].
  rewrite unseen_cons. csimpl in Hnd. apply NoDup_cons in Hnd as [Hx Hnd].
  rewrite bool_decide_eq_false_2 by (apply Hnew; by left).
  f_equal. apply IH; [done|]. intros r Hr.
  assert (transaction_id r ≠ transaction_id x) as Hne.
  { intros E. apply Hx. rewrite <- E. by apply list_elem_of_fmap_2. }
  assert (transaction_id r ∉ seen) as Hns by (apply Hnew; by right).
  rewrite elem_of_union, elem_of_singleton. by intros [?|?].
Qed.

Lemma filter_sublist {A} (p : A → bool) (l : list A) :
  sublist (List.filter p l) l.
Proof.
  induction l as [|x l IH]; simpl; [constructor|].
  destruct (p x); by constructor.
Qed.

Lemma elem_of_filter {A} (p : A → bool) (l : list A) (x : A) :
  x ∈ List.filter p l ↔ x ∈ l ∧ p x = true.
Proof. rewrite !list_elem_of_In. apply filter_In. Qed.

Lemma filter_all {A} (p : A → bool) (l : list A) :
  (∀ x, x ∈ l → p x = true) → List.filter p l = l.
Proof.
  induction l as [|x l IH]; intros Hall; simpl; [done|].
  rewrite (Hall x) by by left. f_equal. apply IH. intros y Hy.
  apply Hall. by right.
Qed.

Lemma cleaned_transaction_id (parse_datetime : string → option Z)
    (l : list Transaction) :
  transaction_id <$> (cleaned parse_datetime <$> l) = transaction_id <$> l.
Proof. rewrite <- list_fmap_compose. by apply list_fmap_ext. Qed.

(** ** Text normalisation *)

Lemma drop_while_Forall {A} (P : A → Prop) (p : A → bool) (l : list A) :
  Forall P l → Forall P (Text.drop_while p l).
Proof.
  induction 1 as [|x l Hx Hl IH]; simpl; [constructor|].
  destruct (p x); [done | by constructor].
Qed.

Lemma strip_Forall (P : ascii → Prop) (l : list ascii) :
  Forall P l → Forall P (Text.rstrip (Text.lstrip l)).
Proof.
  intros Hl. unfold Text.rstrip, Text.lstrip.
  apply Forall_rev, drop_while_Forall, Forall_rev.
  by apply drop_while_Forall.
Qed.

Lemma filter_Forall {A} (p : A → bool) (l : list A) :
  Forall (λ x, p x = true) (List.filter p l).
Proof.
  induction l as [|x l IH]; simpl; [constructor|].
  destruct (p x) eqn:E; [by constructor | done].
Qed.

Lemma filter_Forall_id {A} (p : A → bool) (l : list A) :
  Forall (λ x, p x = true) l → List.filter p l = l.
Proof.
  induction 1 as [|x l Hx Hl IH]; simpl; [done|]. by rewrite Hx, IH.
Qed.

(** Stripping what [remove_special] returns leaves no special character:
    a second normalisation only strips. *)
Lemma remove_special_strip_remove_special (m : string) :
  Text.remove_special (Text.strip (Text.remove_special m))
  = Text.strip (Text.remove_special m).
Proof.
  unfold Text.remove_special at 1. unfold Text.strip.
  rewrite !list_ascii_of_string_of_list_ascii. f_equal.
  apply filter_Forall_id, strip_Forall.
  unfold Text.remove_special. rewrite list_ascii_of_string_of_list_ascii.
  apply filter_Forall.
Qed.

(** ** The Cleaner *)

Lemma clean_succeeds (parse_datetime : string → option Z)
    (l : list Transaction) :
  (∀ r x, r ∈ first_occurrences l → timestamp r = Text x →
          is_Some (parse_datetime x)) →
  clean parse_datetime l =
    Ok (cleaned parse_datetime
          <$> List.filter (survives parse_datetime) (first_occurrences l)).
Proof.
  intros Hall.
  destruct (clean parse_datetime l) as [out|e] eqn:E.
  - by rewrite (clean_ok _ _ _ E).
  - rewrite clean_run, to_datetime_succeeds in E; [done|].
    intros x (r & Hx & Hr)%list_elem_of_fmap. eauto.
Qed.

Lemma clean_NoDup (parse_datetime : string → option Z)
    (l out : list Transaction) :
  clean parse_datetime l = Ok out → NoDup (transaction_id <$> out).
Proof.
  intros ->%clean_ok. rewrite cleaned_transaction_id.
  eapply sublist_NoDup; [apply (unseen_NoDup ∅ l)|].
  apply fmap_sublist, filter_sublist.
Qed.

Lemma filter_select {A} (p : A → bool) (mask : list bool) (l : list A) :
  List.filter p (select mask l) = select (zip_with andb mask (p <$> l)) l.
Proof.
  revert l. induction mask as [|b mask IH]; intros [|x l]; csimpl; try done.
  destruct b; simpl; [|apply IH]. destruct (p x); by rewrite IH.
Qed.

Lemma select_elem {A} (mask : list bool) (l : list A) (i : nat) (x : A) :
  mask !! i = Some true → l !! i = Some x → x ∈ select mask l.
Proof.
  revert l i. induction mask as [|b mask IH]; intros [|y l] [|i]; simpl;
    try done.
  - intros [= ->] [= ->]. by left.
  - intros Hm Hl. destruct b; [right|]; by apply (IH l i).
Qed.

Lemma duplicated_length (seen : gset (option string))
    (keys : list (option string)) :
  length (duplicated seen keys) = length keys.
Proof.
  revert seen. induction keys as [|k keys IH]; intros seen; simpl; [done|].
  by rewrite IH.
Qed.

Lemma first_with_its_id_cons (x : Transaction) (l : list Transaction)
    (i : nat) (r : Transaction) :
  first_with_its_id (x :: l) (S i) r
  ↔ transaction_id x ≠ transaction_id r ∧ first_with_its_id l i r.
Proof.
  unfold first_with_its_id. split.
  - intros Hfirst. split.
    + apply (Hfirst 0%nat x); [lia | done].
    + intros j r' Hj Hr'. apply (Hfirst (S j) r'); [lia | done].
  - intros [Hx Hfirst] [|j] r' Hj; simpl.
    + by intros [= <-].
    + apply Hfirst. lia.
Qed.

(** [duplicated], row by row: a row is not marked exactly when its
    identifier is new and no earlier row has it. *)
Lemma duplicated_lookup (seen : gset (option string)) (l : list Transaction)
    (i : nat) (r : Transaction) :
  l !! i = Some r →
  ∃ b, (negb <$> duplicated seen (transaction_id <$> l)) !! i = Some b
       ∧ (b = true
          ↔ (transaction_id r ∉ seen) ∧ first_with_its_id l i r).
Proof.
  revert seen i. induction l as [|x l IH]; intros seen [|i]; csimpl;
    try done.
  - intros [= ->]. eexists. split; [done|].
    rewrite negb_true_iff, bool_decide_eq_false. split.
    + intros Hnew. split; [done|]. intros j r' Hj. lia.
    + by intros [Hnew _].
  - intros Hr. destruct (IH ({[transaction_id x]} ∪ seen) i Hr)
      as (b & Hb & Hiff).
    exists b. split; [done|].
    rewrite Hiff, first_with_its_id_cons, elem_of_union, elem_of_singleton.
    split.
    + intros [Hnew Hfirst]. repeat split; [| |done].
      * intros ?. apply Hnew. by right.
      * intros E. apply Hnew. by left.
    + intros (Hnew & Hx & Hfirst). split; [|done].
      intros [E|?]; [by apply Hx | by apply Hnew].
Qed.

(** Where the timestamp can be parsed, converting it neither adds nor
    removes a missing value. *)
Lemma survives_parsed (parse_datetime : string → option Z)
    (r : Transaction) :
  (∀ x, timestamp r = Text x → is_Some (parse_datetime x)) →
  survives parse_datetime r = notna_row r.
Proof.
  intros Hparse. unfold survives, notna_row. simpl.
  destruct (timestamp r) as [|x|ns]; simpl; [done| |done].
  by destruct (Hparse x eq_refl) as [ns ->].
Qed.

(** C7 (as amended): when every text timestamp on a first occurrence can
    be parsed, the Cleaner returns, and its output is the cleaned image of
    the input rows selected by a mask, in the order of the input: the row
    at position [i] is selected exactly when no earlier row has its
    identifier and none of its six cells is missing.  So no identifier
    occurs twice in the output, a later occurrence is never returned, and
    an identifier whose first occurrence has a missing value is absent
    from the output. *)
Theorem clean_keeps_first_occurrences (parse_datetime : string → option Z)
    (l : list Transaction) :
  (∀ r x, r ∈ first_occurrences l → timestamp r = Text x →
          is_Some (parse_datetime x)) →
  ∃ out mask,
    clean parse_datetime l = Ok out
    ∧ length mask = length l
    ∧ out = cleaned parse_datetime <$> select mask l
    ∧ NoDup (transaction_id <$> out)
    ∧ ∀ i r, l !! i = Some r →
        (mask !! i = Some true
         ↔ first_with_its_id l i r ∧ notna_row r = true).
Proof.
  intros Hparse. pose proof (clean_succeeds _ _ Hparse) as Hout.
  pose proof (clean_NoDup _ _ _ Hout) as Hnd.
  eexists _, (kept_mask parse_datetime l).
  split; [exact Hout|]. split; [|split; [|split; [done|]]].
  - unfold kept_mask.
    rewrite length_zip_with, !length_fmap, duplicated_length, length_fmap.
    lia.
  - unfold kept_mask, first_occurrences, unseen. by rewrite filter_select.
  - intros i r Hr. unfold kept_mask. rewrite lookup_zip_with.
    destruct (duplicated_lookup ∅ l i r Hr) as (b & Hb & Hiff).
    rewrite Hb, list_lookup_fmap, Hr. simpl.
    assert (b = true → survives parse_datetime r = notna_row r) as Hs.
    { intros ->. apply survives_parsed. intros x. apply Hparse.
      by apply (select_elem _ _ i). }
    split.
    + intros [= [Hb' Hsv]%andb_true_iff].
      rewrite <- (Hs Hb'). split; [|done]. by apply Hiff.
    + intros [Hfirst Hna].
      assert (b = true) as Hb'.
      { apply Hiff. split; [apply not_elem_of_empty | done]. }
      by rewrite (Hs Hb'), Hna, Hb'.
Qed.

Lemma clean_keeps_first_occurrences_witness :
  (∀ r x, r ∈ first_occurrences scenario → timestamp r = Text x →
          is_Some (sample_parser x))
  ∧ ∃ out mask,
      clean sample_parser scenario = Ok out
      ∧ length mask = length scenario
      ∧ out = cleaned sample_parser <$> select mask scenario
      ∧ NoDup (transaction_id <$> out)
      ∧ ∀ i r, scenario !! i = Some r →
          (mask !! i = Some true
           ↔ first_with_its_id scenario i r ∧ notna_row r = true).
Proof.
  assert (∀ r x, r ∈ first_occurrences scenario → timestamp r = Text x →
                 is_Some (sample_parser x)) as Hparse.
  { intros r x Hr. vm_compute in Hr.
    repeat (apply elem_of_cons in Hr as [->|Hr]);
      [intros [= <-]; vm_compute; eauto ..|by apply elem_of_nil in Hr]. }
  split; [exact Hparse|].
  exact (clean_keeps_first_occurrences sample_parser scenario Hparse).
Defined.

(** C7, counterexample: the identifier [A] is present in the input, on a
    first row without amount and on a later, complete row; the Cleaner
    returns no row at all, so the output does not contain the first record
    of every identifier present. *)
Lemma clean_keeps_first_occurrences_counterexample :
  Some "A"%string ∈ transaction_id <$> [txn_A_no_amount; txn_A]
  ∧ clean sample_parser [txn_A_no_amount; txn_A] = Ok []
  ∧ ¬ ∀ id, id ∈ transaction_id <$> [txn_A_no_amount; txn_A] →
        ∃ out, clean sample_parser [txn_A_no_amount; txn_A] = Ok out
               ∧ id ∈ transaction_id <$> out.
Proof.
  assert (Some "A"%string ∈ transaction_id <$> [txn_A_no_amount; txn_A])
    as Hin by (by left).
  assert (clean sample_parser [txn_A_no_amount; txn_A] = Ok []) as Hout
    by (vm_compute; reflexivity).
  split; [done|]. split; [done|].
  intros Hall. destruct (Hall _ Hin) as (out & Hout' & Hid).
  rewrite Hout in Hout'. injection Hout' as <-. by apply elem_of_nil in Hid.
Qed.

(** The Cleaner on the scenario of the specification: one duplicate is
    dropped, two rows are returned. *)
Example clean_scenario : clean sample_parser scenario = Ok scenario_cleaned.
Proof. vm_compute; reflexivity. Qed.

(** C2 (as amended): a text timestamp that the parser rejects, on a row
    kept by deduplication, makes the Cleaner raise: the whole batch fails
    and nothing is returned. *)
Theorem clean_unparseable_timestamp_raises
    (parse_datetime : string → option Z) (l : list Transaction)
    (r : Transaction) (x : string) :
  r ∈ first_occurrences l →
  timestamp r = Text x →
  parse_datetime x = None →
  clean parse_datetime l = Raise ValueError.
Proof.
  intros Hr Hx Hnone. rewrite clean_run.
  rewrite (to_datetime_raises _ _ x); [done| |done].
  rewrite <- Hx. by apply list_elem_of_fmap_2.
Qed.

Lemma clean_unparseable_timestamp_raises_witness :
  with_timestamp txn_B (Text "not a date")
    ∈ first_occurrences [txn_A; with_timestamp txn_B (Text "not a date")]
  ∧ sample_parser "not a date" = None
  ∧ clean sample_parser [txn_A; with_timestamp txn_B (Text "not a date")]
    = Raise ValueError.
Proof.
  assert (with_timestamp txn_B (Text "not a date")
            ∈ first_occurrences
                [txn_A; with_timestamp txn_B (Text "not a date")]) as Hin.
  { vm_compute. apply list_elem_of_further, list_elem_of_here. }
  split; [exact Hin|]. split; [reflexivity|].
  exact (clean_unparseable_timestamp_raises sample_parser _ _ "not a date"
           Hin eq_refl eq_refl).
Defined.

(** C2, counterexample: a batch of two rows with different identifiers,
    the second with a timestamp that cannot be parsed.  The Cleaner raises;
    the first row is not returned. *)
Lemma clean_unparseable_timestamp_counterexample :
  sample_parser "not a date" = None
  ∧ clean sample_parser [txn_A; with_timestamp txn_B (Text "not a date")]
    = Raise ValueError.
Proof. split; vm_compute; reflexivity. Qed.

(** A row that the Cleaner returns has a parsed timestamp, no missing
    value and a merchant free of special characters; cleaning it again
    only strips its merchant. *)
Lemma cleaned_again (parse_datetime : string → option Z) (r : Transaction) :
  survives parse_datetime r = true →
  (∃ ns, timestamp (cleaned parse_datetime r) = Instant ns)
  ∧ survives parse_datetime (cleaned parse_datetime r) = true
  ∧ cleaned parse_datetime (cleaned parse_datetime r)
    = restripped (cleaned parse_datetime r).
Proof.
  destruct r as [tid ts a m u fr]. unfold survives, cleaned, normalized,
    restripped, notna_row. simpl.
  destruct ts as [|x|ns]; simpl; try destruct (parse_datetime x);
    simpl; rewrite ?andb_false_r; try done;
    (destruct m as [m|]; simpl; [|by rewrite ?andb_false_r]);
    (intros Hrow; split; [eauto|split; [done|]]);
    by rewrite remove_special_strip_remove_special.
Qed.

(** C3 (as amended): applying the Cleaner to its own output succeeds and
    returns the same rows in the same order, equal in every attribute but
    the merchant, which is stripped once more (removing special characters
    can leave white space at the ends of a merchant); the output is
    unchanged when stripping changes no merchant of it. *)
Theorem clean_twice (parse_datetime : string → option Z)
    (l out : list Transaction) :
  clean parse_datetime l = Ok out →
  clean parse_datetime out = Ok (restripped <$> out)
  ∧ ((∀ r m, r ∈ out → merchant r = Some m → Text.strip m = m) →
     clean parse_datetime out = Ok out).
Proof.
  intros Hout.
  pose proof (clean_NoDup _ _ _ Hout) as Hnd.
  apply clean_ok in Hout.
  assert (∀ r, r ∈ out →
            (∃ ns, timestamp r = Instant ns)
            ∧ survives parse_datetime r = true
            ∧ cleaned parse_datetime r = restripped r) as Hinv.
  { subst out. intros ? (r & -> & [_ Hr]%elem_of_filter)%list_elem_of_fmap.
    by apply cleaned_again. }
  assert (first_occurrences out = out) as Hfirst.
  { apply unseen_all; [done|]. intros r _. apply not_elem_of_empty. }
  assert (clean parse_datetime out = Ok (restripped <$> out)) as Htwice.
  { rewrite clean_succeeds, Hfirst.
    - rewrite filter_all by (intros r Hr; by apply Hinv). f_equal.
      apply list_fmap_ext. intros i r Hr%list_elem_of_lookup_2.
      by apply Hinv.
    - rewrite Hfirst. intros r x Hr Hx.
      destruct (Hinv r Hr) as [[ns Hns] _]. congruence. }
  split; [done|]. intros Hstripped. rewrite Htwice. f_equal.
  rewrite <- (list_fmap_id out) at 2. apply list_fmap_ext.
  intros i [tid ts a [m|] u fr] Hr%list_elem_of_lookup_2; [|done].
  unfold restripped. simpl. by rewrite (Hstripped _ m Hr).
Qed.

Lemma clean_twice_witness :
  clean sample_parser scenario = Ok scenario_cleaned
  ∧ clean sample_parser scenario_cleaned = Ok (restripped <$> scenario_cleaned)
  ∧ ((∀ r m, r ∈ scenario_cleaned → merchant r = Some m →
             Text.strip m = m) →
     clean sample_parser scenario_cleaned = Ok scenario_cleaned).
Proof.
  split; [vm_compute; reflexivity|].
  apply (clean_twice sample_parser scenario). vm_compute; reflexivity.
Defined.

(** C3, counterexample: the merchant ["Acme ."] is cleaned to ["Acme "];
    cleaning that output gives ["Acme"], not the output again. *)
Lemma clean_twice_counterexample :
  clean sample_parser [acme "Acme ."] = Ok [acme "Acme "]
  ∧ clean sample_parser [acme "Acme "] = Ok [acme "Acme"]
  ∧ clean sample_parser [acme "Acme "] ≠ Ok [acme "Acme "].
Proof. split; [|split]; [vm_compute; reflexivity ..|vm_compute; discriminate]. Qed.

(** ** The Rule Engine as a function of the frame *)

Lemma apply_rule_based_detection_run (df : nat) (f : DataFrame)
    (h : list DataFrame) :
  h !! df = Some f →
  apply_rule_based_detection df h =
    match rapid_transactions_flag (rows f) with
    | Raise e => (Raise e, h ++ [mkFrame (rows f) (with_prev f)])
    | Ok rapid =>
        (Ok (S (length h)),
         h ++ [mkFrame (rows f) (with_scores f rapid);
               mkFrame (rows f)
                 (assoc_del "prev_transaction_time" (with_scores f rapid))])
    end.
Proof.
  intros Hf.
  unfold apply_rule_based_detection, copy, set_column, get_timestamp,
    get_column, drop.
  rewrite bind_assoc, (read_bind _ _ _ _ Hf), alloc_bind.
  rewrite read_last_bind, modify_last_bind.
  rewrite bind_assoc, read_last_bind, ret_bind.
  rewrite bind_assoc, read_last_bind. cbn [columns rows].
  rewrite assoc_get_set_eq, ret_bind, lift_bind.
  unfold rapid_transactions_flag, time_diff, prev_transaction_time.
  destruct (total_seconds_between _ _) as [d|e]; [|done].
  rewrite !modify_last_bind.
  rewrite bind_assoc, read_last_bind. cbn [columns rows].
  rewrite !assoc_get_set_ne by done. rewrite assoc_get_set_eq.
  rewrite alloc_bind, ret_run, !length_app, <- app_assoc. simpl.
  by rewrite Nat.add_1_r.
Qed.

Lemma score_run (l : list Transaction) :
  score l =
    result_bind (rapid_transactions_flag l)
      (λ rapid, Ok (zip3 l (combined_flag l rapid) (combined_score l rapid))).
Proof.
  unfold score, run. rewrite alloc_bind, bind_run.
  rewrite (apply_rule_based_detection_run _ (source_frame l))
    by apply lookup_snoc.
  destruct (rapid_transactions_flag _) as [rapid|e]; [|done].
  reflexivity.
Qed.

Lemma groupby_shift_length (last : gmap string Timestamp)
    (l : list Transaction) :
  length (groupby_shift last l) = length l.
Proof.
  revert last. induction l as [|r l IH]; intros last; simpl; [done|].
  destruct (user_id r); simpl; by rewrite IH.
Qed.

Lemma rapid_transactions_flag_length (l : list Transaction)
    (rapid : list bool) :
  rapid_transactions_flag l = Ok rapid → length rapid = length l.
Proof.
  unfold rapid_transactions_flag, time_diff, total_seconds_between.
  destruct (traverse _ _) as [d|e] eqn:E; simpl; [|done]. intros [= <-].
  apply traverse_length in E. unfold series_lt.
  rewrite length_fmap, E, length_zip, length_fmap.
  unfold prev_transaction_time. rewrite groupby_shift_length. lia.
Qed.

Lemma high_amount_flag_length (l : list Transaction) :
  length (high_amount_flag l) = length l.
Proof. unfold high_amount_flag, series_gt. by rewrite !length_fmap. Qed.

Lemma merchant_risk_flag_length (l : list Transaction) :
  length (merchant_risk_flag l) = length l.
Proof. unfold merchant_risk_flag, str_contains. by rewrite !length_fmap. Qed.

Lemma zip3_length (l : list Transaction) (flag : list bool) (sc : list Z) :
  length flag = length l → length sc = length l →
  length (zip3 l flag sc) = length l.
Proof.
  revert flag sc. induction l as [|r l IH]; intros [|b flag] [|n sc];
    simpl; try done. intros [=] [=]. f_equal. by apply IH.
Qed.

Lemma zip3_lookup (l : list Transaction) (flag : list bool) (sc : list Z)
    (i : nat) (s : ScoredTransaction) :
  zip3 l flag sc !! i = Some s →
  l !! i = Some (transaction s)
  ∧ flag !! i = Some (rule_based_fraud_flag s)
  ∧ sc !! i = Some (fraud_score s).
Proof.
  revert flag sc i. induction l as [|r l IH]; intros [|b flag] [|n sc] i;
    simpl; try done.
  destruct i as [|i]; simpl; [by intros [= <-] | apply IH].
Qed.

Lemma traverse_total {A B} (f : A → Result B) (l : list A) :
  Forall (λ x, ∃ y, f x = Ok y) l → ∃ ys, traverse f l = Ok ys.
Proof.
  induction 1 as [|x l [y Hy] _ [ys Hys]]; simpl; [eauto|].
  rewrite Hy, Hys. simpl. eauto.
Qed.

Lemma groupby_shift_Forall (P : Timestamp → Prop)
    (last : gmap string Timestamp) (l : list Transaction) :
  P NaT → (∀ u t, last !! u = Some t → P t) →
  Forall (λ r, P (timestamp r)) l →
  Forall P (groupby_shift last l).
Proof.
  intros HNaT Hlast Hl. revert last Hlast.
  induction Hl as [|r l Hr _ IH]; intros last Hlast; simpl; [constructor|].
  destruct (user_id r) as [u|]; constructor; try done.
  - destruct (last !! u) as [t|] eqn:E; simpl; eauto.
  - apply IH. intros v t. destruct (decide (u = v)) as [->|Hne].
    + rewrite lookup_insert_eq. by intros [= <-].
    + rewrite lookup_insert_ne by done. apply Hlast.
  - by apply IH.
Qed.

(** The Rule Engine raises only on a timestamp column that holds text. *)
Lemma rapid_transactions_flag_total (l : list Transaction) :
  (∀ r x, r ∈ l → timestamp r ≠ Text x) →
  ∃ rapid, rapid_transactions_flag l = Ok rapid.
Proof.
  intros Hparsed. unfold rapid_transactions_flag, time_diff,
    total_seconds_between.
  destruct (traverse_total (λ tp, seconds_between tp.1 tp.2)
              (zip (timestamp <$> l) (prev_transaction_time l)))
    as [d ->]; [|simpl; eauto].
  assert (Forall (λ p, ∀ x, p ≠ Text x) (prev_transaction_time l)) as Hprev.
  { apply groupby_shift_Forall; [done|by intros u t ?%lookup_empty_Some|].
    apply Forall_forall. intros r Hr x. by apply Hparsed. }
  apply Forall_forall. intros [t p] [i Hi]%list_elem_of_lookup_1.
  apply lookup_zip_with_Some in Hi as (t' & p' & [= <- <-] & Ht & Hp).
  rewrite list_lookup_fmap in Ht.
  destruct (l !! i) as [r|] eqn:Hr; [|done]. injection Ht as <-.
  apply list_elem_of_lookup_2 in Hr.
  pose proof (Hparsed r) as Ht.
  pose proof (proj1 (Forall_lookup _ _) Hprev i p Hp) as Hp'. simpl.
  destruct (timestamp r) as [|x|t]; [|by destruct (Ht x)|];
    (destruct p as [|y|q]; [|by destruct (Hp' y)|]); simpl; eauto.
Qed.

(** C4: on every frame whose timestamps are parsed or missing the Rule
    Engine returns, one scored row per input row, and for every scored row
    the score is the number of the three rule flags that hold for that
    row, lies between 0 and 3, and the flag is true exactly when the score
    is positive. *)
Theorem score_counts_rules (l : list Transaction) :
  (∀ r x, r ∈ l → timestamp r ≠ Text x) →
  ∃ out rapid,
    score l = Ok out
    ∧ rapid_transactions_flag l = Ok rapid
    ∧ length out = length l
    ∧ ∀ i s, out !! i = Some s →
        ∃ r1 r2 r3,
          l !! i = Some (transaction s)
          ∧ high_amount_flag l !! i = Some r1
          ∧ merchant_risk_flag l !! i = Some r2
          ∧ rapid !! i = Some r3
          ∧ fraud_score s = Z.b2z r1 + Z.b2z r2 + Z.b2z r3
          ∧ 0 ≤ fraud_score s ≤ 3
          ∧ (rule_based_fraud_flag s = true ↔ 0 < fraud_score s).
Proof.
  intros [rapid E]%rapid_transactions_flag_total.
  exists (zip3 l (combined_flag l rapid) (combined_score l rapid)), rapid.
  split; [by rewrite score_run, E|]. split; [done|].
  pose proof (rapid_transactions_flag_length _ _ E) as Hrapid.
  pose proof (high_amount_flag_length l) as Hamount.
  pose proof (merchant_risk_flag_length l) as Hmerchant.
  split.
  - apply zip3_length; unfold combined_flag, combined_score;
      rewrite !length_zip_with, ?length_fmap; lia.
  - intros i s (Hrow & Hflag & Hscore)%zip3_lookup.
    unfold combined_flag in Hflag. unfold combined_score in Hscore.
    apply lookup_zip_with_Some in Hflag
      as (b12 & r3 & -> & (r1 & r2 & -> & H1 & H2)%lookup_zip_with_Some & H3).
    apply lookup_zip_with_Some in Hscore
      as (n12 & n3 & -> & (n1 & n2 & -> & Hn1 & Hn2)%lookup_zip_with_Some
          & Hn3).
    rewrite list_lookup_fmap, H1 in Hn1. rewrite list_lookup_fmap, H2 in Hn2.
    rewrite list_lookup_fmap, H3 in Hn3.
    injection Hn1 as <-. injection Hn2 as <-. injection Hn3 as <-.
    exists r1, r2, r3. repeat split; try done;
      destruct r1, r2, r3; simpl; try lia; done.
Qed.

Lemma score_counts_rules_witness :
  (∀ r x, r ∈ scenario_cleaned → timestamp r ≠ Text x)
  ∧ ∃ out rapid,
      score scenario_cleaned = Ok out
      ∧ rapid_transactions_flag scenario_cleaned = Ok rapid
      ∧ length out = length scenario_cleaned
      ∧ ∀ i s, out !! i = Some s →
          ∃ r1 r2 r3,
            scenario_cleaned !! i = Some (transaction s)
            ∧ high_amount_flag scenario_cleaned !! i = Some r1
            ∧ merchant_risk_flag scenario_cleaned !! i = Some r2
            ∧ rapid !! i = Some r3
            ∧ fraud_score s = Z.b2z r1 + Z.b2z r2 + Z.b2z r3
            ∧ 0 ≤ fraud_score s ≤ 3
            ∧ (rule_based_fraud_flag s = true ↔ 0 < fraud_score s).
Proof.
  assert (∀ r x, r ∈ scenario_cleaned → timestamp r ≠ Text x) as Hparsed.
  { intros r x Hr. unfold scenario_cleaned in Hr.
    repeat (apply elem_of_cons in Hr as [->|Hr]);
      [discriminate ..|by apply elem_of_nil in Hr]. }
  split; [exact Hparsed|].
  exact (score_counts_rules scenario_cleaned Hparsed).
Defined.

(** The scored rows of the scenario of the specification. *)
Example score_scenario : score scenario_cleaned = Ok scenario_scored.
Proof. vm_compute; reflexivity. Qed.

(** ** Rule 1: high amount *)

Lemma series_gt_true (q : Q) (bound : Q) :
  negb (Qle_bool q bound) = true ↔ (bound < q)%Q.
Proof.
  rewrite negb_true_iff, <- not_true_iff_false, Qle_bool_iff.
  split; [apply Qnot_le_lt | apply Qlt_not_le].
Qed.

(** C5: the flag of rule R1 holds for a row exactly when its amount is
    strictly greater than 1000; an amount of 1000 does not trigger it and
    an amount of 1000.01 does. *)
Theorem high_amount_rule (l : list Transaction) (i : nat) (r : Transaction) :
  l !! i = Some r →
  (high_amount_flag l !! i = Some true
   ↔ ∃ a, amount r = Some a ∧ (1000 < a)%Q)
  ∧ (amount r = Some 1000%Q → high_amount_flag l !! i = Some false)
  ∧ (amount r = Some (100001 # 100)%Q → high_amount_flag l !! i = Some true).
Proof.
  intros Hr. unfold high_amount_flag, series_gt.
  rewrite !list_lookup_fmap, Hr. simpl.
  split; [|split].
  - destruct (amount r) as [a|]; simpl.
    + split.
      * intros [= Ha]. exists a. split; [done|]. by apply series_gt_true.
      * intros (a' & [= <-] & Ha). f_equal. by apply series_gt_true.
    + split; [done|]. by intros (a & [=] & _).
  - by intros ->.
  - by intros ->.
Qed.

Lemma high_amount_rule_witness :
  [txn_A; txn_B] !! 0%nat = Some txn_A
  ∧ (high_amount_flag [txn_A; txn_B] !! 0%nat = Some true
     ↔ ∃ a, amount txn_A = Some a ∧ (1000 < a)%Q)
  ∧ (amount txn_A = Some 1000%Q
     → high_amount_flag [txn_A; txn_B] !! 0%nat = Some false)
  ∧ (amount txn_A = Some (100001 # 100)%Q
     → high_amount_flag [txn_A; txn_B] !! 0%nat = Some true).
Proof.
  split; [reflexivity|].
  apply (high_amount_rule [txn_A; txn_B] 0 txn_A). reflexivity.
Defined.

(** The float nearest to 1000.01 is greater than 1000 as well. *)
Example high_amount_nearest_float (r : Transaction) :
  amount r = Some (4398090491569111 # 4398046511104)%Q →
  high_amount_flag [r] = [true].
Proof. unfold high_amount_flag. simpl. by intros ->. Qed.

(** ** Rule 2: high-risk merchant *)

Lemma list_ascii_of_string_append (a b : string) :
  list_ascii_of_string (String.append a b)
  = list_ascii_of_string a ++ list_ascii_of_string b.
Proof. induction a as [|c a IH]; simpl; [done|]. by rewrite IH. Qed.

Lemma match_here_prefix (p s : list ascii) :
  Text.match_here p s = true
  ↔ ∃ post, Text.lower <$> s = (Text.lower <$> p) ++ post.
Proof.
  revert s. induction p as [|c p IH]; intros s.
  - simpl. split; [eauto | done].
  - destruct s as [|d s]; csimpl.
    + split; [done | by intros [post ?]].
    + unfold Text.eq_ignore_case.
      rewrite andb_true_iff, bool_decide_eq_true, IH. split.
      * intros [-> [post ->]]. eauto.
      * intros [post [= -> ->]]. eauto.
Qed.

Lemma search_infix (alts : list (list ascii)) (s : list ascii) :
  Text.search alts s = true
  ↔ ∃ p pre post,
      p ∈ alts ∧ Text.lower <$> s = pre ++ (Text.lower <$> p) ++ post.
Proof.
  assert (∀ t, existsb (λ p, Text.match_here p t) alts = true
               ↔ ∃ p post, p ∈ alts
                   ∧ Text.lower <$> t = (Text.lower <$> p) ++ post) as Hhere.
  { intros t. rewrite existsb_exists. split.
    - intros (p & Hp%list_elem_of_In & [post Hm]%match_here_prefix). eauto.
    - intros (p & post & Hp%list_elem_of_In & Hm). exists p.
      split; [done|]. apply match_here_prefix. eauto. }
  induction s as [|d s IH].
  - simpl. rewrite orb_false_r, Hhere. split.
    + intros (p & post & Hp & Hm). by exists p, [], post.
    + intros (p & pre & post & Hp & Hm). exists p, post. split; [done|].
      symmetry in Hm. apply app_eq_nil in Hm as [-> Hm]. by rewrite Hm.
  - simpl. rewrite orb_true_iff, Hhere, IH. split.
    + intros [(p & post & Hp & Hm)|(p & pre & post & Hp & Hm)].
      * by exists p, [], post.
      * exists p, (Text.lower d :: pre), post. split; [done|].
        csimpl. by rewrite Hm.
    + intros (p & [|x pre] & post & Hp & Hm).
      * left. eauto.
      * right. csimpl in Hm. injection Hm as _ Hm. eauto.
Qed.

Lemma string_of_list_ascii_app (a b : list ascii) :
  string_of_list_ascii (a ++ b)
  = String.append (string_of_list_ascii a) (string_of_list_ascii b).
Proof. induction a as [|c a IH]; simpl; [done|]. by rewrite IH. Qed.

Lemma occurs_in_lists (k s : string) :
  Text.occurs_in k s
  ↔ ∃ pre post : list ascii,
      list_ascii_of_string s = pre ++ list_ascii_of_string k ++ post.
Proof.
  split.
  - intros (pre & post & ->). rewrite !list_ascii_of_string_append. eauto.
  - intros (pre & post & Hs).
    exists (string_of_list_ascii pre), (string_of_list_ascii post).
    rewrite <- (string_of_list_ascii_of_string k) at 1.
    rewrite <- !string_of_list_ascii_app, <- Hs.
    by rewrite string_of_list_ascii_of_string.
Qed.

Lemma lower_string_list (s : string) :
  list_ascii_of_string (Text.lower_string s)
  = Text.lower <$> list_ascii_of_string s.
Proof. apply list_ascii_of_string_of_list_ascii. Qed.

Lemma str_contains_words (words : list string) (l : list Transaction)
    (i : nat) (r : Transaction) :
  l !! i = Some r →
  str_contains words (merchant <$> l) !! i = Some true
  ↔ ∃ m k, merchant r = Some m ∧ k ∈ words
           ∧ Text.occurs_in (Text.lower_string k) (Text.lower_string m).
Proof.
  intros Hr. unfold str_contains. rewrite !list_lookup_fmap, Hr. simpl.
  destruct (merchant r) as [m|].
  - assert (∀ b : bool, Some b = Some true ↔ b = true) as ->
        by (intros b; split; congruence).
    rewrite search_infix. split.
    + intros (p & pre & post & (k & -> & Hk)%list_elem_of_fmap & Hm).
      exists m, k. split; [done|]. split; [done|].
      apply occurs_in_lists. rewrite !lower_string_list. eauto.
    + intros (m' & k & [= <-] & Hk & Hocc).
      apply occurs_in_lists in Hocc as (pre & post & Hm).
      rewrite !lower_string_list in Hm.
      exists (list_ascii_of_string k), pre, post. split; [|done].
      by apply (list_elem_of_fmap_2 list_ascii_of_string).
  - split; [done|]. by intros (m & k & [=] & _).
Qed.

(** C6 (as amended): on a merchant whose code points are below 256, as
    every text of this model is, the flag of rule R2 holds for a row
    exactly when its merchant contains one of the four risk words as a
    substring, letter case ignored; ["cryptoExchange"] and
    ["CRYPTO Exchange"] trigger it and ["Crypt"] does not. *)
Theorem merchant_risk_rule (l : list Transaction) (i : nat) (r : Transaction) :
  l !! i = Some r →
  (merchant_risk_flag l !! i = Some true
   ↔ ∃ m k, merchant r = Some m
            ∧ k ∈ ["Casino"; "Gaming"; "Crypto"; "Betting"]%string
            ∧ Text.occurs_in (Text.lower_string k) (Text.lower_string m))
  ∧ (merchant r = Some "cryptoExchange"%string
     → merchant_risk_flag l !! i = Some true)
  ∧ (merchant r = Some "CRYPTO Exchange"%string
     → merchant_risk_flag l !! i = Some true)
  ∧ (merchant r = Some "Crypt"%string
     → merchant_risk_flag l !! i = Some false).
Proof.
  intros Hr. split; [by apply str_contains_words|].
  unfold merchant_risk_flag, str_contains.
  rewrite !list_lookup_fmap, Hr. simpl. repeat split; by intros ->.
Qed.

Lemma merchant_risk_rule_witness :
  [txn_A; txn_B] !! 0%nat = Some txn_A
  ∧ (merchant_risk_flag [txn_A; txn_B] !! 0%nat = Some true
     ↔ ∃ m k, merchant txn_A = Some m
              ∧ k ∈ ["Casino"; "Gaming"; "Crypto"; "Betting"]%string
              ∧ Text.occurs_in (Text.lower_string k) (Text.lower_string m))
  ∧ (merchant txn_A = Some "cryptoExchange"%string
     → merchant_risk_flag [txn_A; txn_B] !! 0%nat = Some true)
  ∧ (merchant txn_A = Some "CRYPTO Exchange"%string
     → merchant_risk_flag [txn_A; txn_B] !! 0%nat = Some true)
  ∧ (merchant txn_A = Some "Crypt"%string
     → merchant_risk_flag [txn_A; txn_B] !! 0%nat = Some false).
Proof.
  split; [reflexivity|].
  apply (merchant_risk_rule [txn_A; txn_B] 0 txn_A). reflexivity.
Defined.

(** *** Rule 2 on text of arbitrary code points *)

Lemma unicode_match_here_prefix (f : N → N) (p s : list N) :
  Unicode.match_here f p s = true ↔ ∃ post, f <$> s = (f <$> p) ++ post.
Proof.
  revert s. induction p as [|c p IH]; intros s.
  - simpl. split; [eauto | done].
  - destruct s as [|d s]; csimpl.
    + split; [done | by intros [post ?]].
    + rewrite andb_true_iff, bool_decide_eq_true, IH. split.
      * intros [-> [post ->]]. eauto.
      * intros [post [= -> ->]]. eauto.
Qed.

Lemma unicode_search_infix (f : N → N) (alts : list (list N)) (s : list N) :
  Unicode.search f alts s = true
  ↔ ∃ p pre post, p ∈ alts ∧ f <$> s = pre ++ (f <$> p) ++ post.
Proof.
  assert (∀ t, existsb (λ p, Unicode.match_here f p t) alts = true
               ↔ ∃ p post, p ∈ alts ∧ f <$> t = (f <$> p) ++ post) as Hhere.
  { intros t. rewrite existsb_exists. split.
    - intros (p & Hp%list_elem_of_In & [post Hm]%unicode_match_here_prefix).
      eauto.
    - intros (p & post & Hp%list_elem_of_In & Hm). exists p.
      split; [done|]. apply unicode_match_here_prefix. eauto. }
  induction s as [|d s IH].
  - simpl. rewrite orb_false_r, Hhere. split.
    + intros (p & post & Hp & Hm). by exists p, [], post.
    + intros (p & pre & post & Hp & Hm). exists p, post. split; [done|].
      symmetry in Hm. apply app_eq_nil in Hm as [-> Hm]. by rewrite Hm.
  - simpl. rewrite orb_true_iff, Hhere, IH. split.
    + intros [(p & post & Hp & Hm)|(p & pre & post & Hp & Hm)].
      * by exists p, [], post.
      * exists p, (f d :: pre), post. split; [done|]. csimpl. by rewrite Hm.
    + intros (p & [|x pre] & post & Hp & Hm).
      * left. eauto.
      * right. csimpl in Hm. injection Hm as _ Hm. eauto.
Qed.

(** On every text, whatever its code points, R2 is substring occurrence
    after the folding of [re.IGNORECASE]. *)
Lemma unicode_contains_occurs (words : list string) (t : list N) :
  Unicode.contains words t = true ↔ Unicode.occurs Unicode.fold words t.
Proof.
  unfold Unicode.contains, Unicode.occurs. rewrite unicode_search_infix.
  split.
  - intros (p & pre & post & (k & -> & Hk)%list_elem_of_fmap & Hm). eauto.
  - intros (k & pre & post & Hk & Hm).
    exists (Unicode.of_string k), pre, post. split; [|done].
    by apply (list_elem_of_fmap_2 Unicode.of_string).
Qed.

Lemma unicode_search_occurs (f : N → N) (words : list string) (t : list N) :
  Unicode.search f (Unicode.of_string <$> words) t = true
  ↔ Unicode.occurs f words t.
Proof.
  unfold Unicode.occurs. rewrite unicode_search_infix. split.
  - intros (p & pre & post & (k & -> & Hk)%list_elem_of_fmap & Hm). eauto.
  - intros (k & pre & post & Hk & Hm).
    exists (Unicode.of_string k), pre, post. split; [|done].
    by apply (list_elem_of_fmap_2 Unicode.of_string).
Qed.

(** Below code point 256 the folding of [re.IGNORECASE] is the ASCII
    one. *)
Lemma unicode_fold_ascii (c : ascii) :
  Unicode.fold (N_of_ascii c) = N_of_ascii (Text.lower c).
Proof.
  destruct c as [[] [] [] [] [] [] [] []]; vm_compute; reflexivity.
Qed.

Lemma unicode_match_here_string (p s : list ascii) :
  Unicode.match_here Unicode.fold (N_of_ascii <$> p) (N_of_ascii <$> s)
  = Text.match_here p s.
Proof.
  revert s. induction p as [|c p IH]; intros [|d s]; csimpl; try done.
  rewrite IH. f_equal. unfold Text.eq_ignore_case.
  apply bool_decide_ext. rewrite !unicode_fold_ascii. split.
  - intros H. rewrite <- (ascii_N_embedding (Text.lower c)), H.
    apply ascii_N_embedding.
  - by intros ->.
Qed.

(** On a text of the 8-bit model the two searches agree: the column that
    the engine computes is [Unicode.contains] on each merchant. *)
Lemma unicode_contains_string (words : list string) (m : string) :
  Unicode.contains words (Unicode.of_string m)
  = Text.search (list_ascii_of_string <$> words) (list_ascii_of_string m).
Proof.
  unfold Unicode.contains, Unicode.of_string.
  induction (list_ascii_of_string m) as [|d s IH]; csimpl.
  - f_equal. induction words as [|k words IHw]; csimpl; [done|].
    rewrite IHw. f_equal.
    apply (unicode_match_here_string (list_ascii_of_string k) []).
  - rewrite IH. f_equal. clear IH.
    induction words as [|k words IHw]; csimpl; [done|].
    rewrite IHw. f_equal.
    apply (unicode_match_here_string (list_ascii_of_string k) (d :: s)).
Qed.

Lemma merchant_risk_flag_unicode (l : list Transaction) (i : nat)
    (r : Transaction) (m : string) :
  l !! i = Some r → merchant r = Some m →
  merchant_risk_flag l !! i
  = Some (Unicode.contains high_risk_merchants (Unicode.of_string m)).
Proof.
  intros Hr Hm. unfold merchant_risk_flag, str_contains.
  rewrite !list_lookup_fmap, Hr. simpl. rewrite Hm.
  by rewrite unicode_contains_string.
Qed.

(** C6, counterexample: the merchant BETT(U+0130)NG Co.  The search of the
    code finds [Betting] in it, U+0130 matching [i] under
    [re.IGNORECASE]; with letter case ignored no risk word occurs in it,
    nor in its lower-cased form.  Every character of it is a word
    character or a space, so the Cleaner leaves it as it is. *)
Lemma merchant_risk_rule_counterexample :
  Unicode.contains ["Casino"; "Gaming"; "Crypto"; "Betting"]%string
    betting_dotted = true
  ∧ ¬ Unicode.occurs Unicode.lower
        ["Casino"; "Gaming"; "Crypto"; "Betting"]%string betting_dotted
  ∧ ¬ Unicode.occurs Unicode.lower
        ["Casino"; "Gaming"; "Crypto"; "Betting"]%string
        betting_dotted_lowered.
Proof.
  split; [vm_compute; reflexivity|].
  split; intros H%unicode_search_occurs; vm_compute in H; discriminate.
Qed.

(** The three merchants of the specification, as rows of a frame. *)
Example merchant_risk_examples :
  merchant_risk_flag
    [acme "cryptoExchange"; acme "CRYPTO Exchange"; acme "Crypt"]
  = [true; true; false].
Proof. reflexivity. Qed.

(** ** Rule 3: rapid repeat *)

Lemma groupby_shift_lookup (last : gmap string Timestamp)
    (l1 l2 : list Transaction) (r : Transaction) :
  groupby_shift last (l1 ++ r :: l2) !! length l1
  = Some (match user_id r with
          | Some u => default NaT (seen_after last l1 !! u)
          | None => NaT
          end).
Proof.
  revert last. induction l1 as [|x l1 IH]; intros last; simpl.
  - by destruct (user_id r).
  - destruct (user_id x); simpl; apply IH.
Qed.

Lemma seen_after_app (last : gmap string Timestamp)
    (l1 l2 : list Transaction) :
  seen_after last (l1 ++ l2) = seen_after (seen_after last l1) l2.
Proof. apply foldl_app. Qed.

(** No row of the user in [l]: the entry of the user is untouched. *)
Lemma seen_after_other (last : gmap string Timestamp) (l : list Transaction)
    (u : string) :
  (∀ r, r ∈ l → user_id r ≠ Some u) →
  seen_after last l !! u = last !! u.
Proof.
  revert last. induction l as [|x l IH]; intros last Hl; [done|].
  simpl. rewrite IH by (intros r Hr; apply Hl; by right).
  destruct (user_id x) as [v|] eqn:E; [|done].
  rewrite lookup_insert_ne; [done|]. intros ->. by apply (Hl x); [left|].
Qed.

(** The entry of a user is the timestamp of its latest row. *)
Lemma seen_after_latest (last : gmap string Timestamp)
    (l0 l1 : list Transaction) (p : Transaction) (u : string) :
  user_id p = Some u →
  (∀ r, r ∈ l1 → user_id r ≠ Some u) →
  seen_after last (l0 ++ p :: l1) !! u = Some (timestamp p).
Proof.
  intros Hp Hl1. rewrite seen_after_app. simpl. rewrite Hp.
  rewrite seen_after_other by done. apply lookup_insert_eq.
Qed.


(** A later row of a user gets the timestamp of the row of that user
    which comes just before it in the frame. *)
Lemma prev_transaction_time_previous (l0 l1 l2 : list Transaction)
    (p r : Transaction) (u : string) :
  user_id p = Some u → user_id r = Some u →
  (∀ r', r' ∈ l1 → user_id r' ≠ Some u) →
  prev_transaction_time (l0 ++ p :: l1 ++ r :: l2)
    !! (length l0 + 1 + length l1)%nat
  = Some (timestamp p).
Proof.
  intros Hp Hr Hl1. unfold prev_transaction_time.
  replace (l0 ++ p :: l1 ++ r :: l2) with ((l0 ++ p :: l1) ++ r :: l2)
    by by rewrite <- app_assoc.
  replace (length l0 + 1 + length l1)%nat with (length (l0 ++ p :: l1))
    by (rewrite length_app; simpl; lia).
  rewrite groupby_shift_lookup, Hr. by rewrite (seen_after_latest _ _ _ _ u).
Qed.

Lemma traverse_lookup {A B} (f : A → Result B) (l : list A) (ys : list B)
    (i : nat) (x : A) :
  traverse f l = Ok ys → l !! i = Some x →
  ∃ y, f x = Ok y ∧ ys !! i = Some y.
Proof.
  revert ys i. induction l as [|x' l IH]; intros ys i; [done|].
  intros (y & ys' & Hx & Hl & ->)%traverse_cons_ok.
  destruct i as [|i]; simpl.
  - intros [= <-]. eauto.
  - by apply IH.
Qed.

(** The flag of rule R3 on the row at position [i]. *)
Lemma rapid_transactions_flag_lookup (l : list Transaction)
    (rapid : list bool) (i : nat) (r : Transaction) (p : Timestamp) :
  rapid_transactions_flag l = Ok rapid →
  l !! i = Some r →
  prev_transaction_time l !! i = Some p →
  ∃ d, seconds_between (timestamp r) p = Ok d
       ∧ rapid !! i = Some (match d with
                            | Some q => negb (Qle_bool 60 q)
                            | None => false
                            end).
Proof.
  unfold rapid_transactions_flag, time_diff, total_seconds_between.
  destruct (traverse _ _) as [ds|e] eqn:E; simpl; [|done].
  intros [= <-] Hr Hp.
  destruct (traverse_lookup _ _ _ i (timestamp r, p) E) as (d & Hd & Hi).
  { apply lookup_zip_with_Some. exists (timestamp r), p.
    by rewrite list_lookup_fmap, Hr, Hp. }
  exists d. split; [done|]. unfold series_lt.
  by rewrite list_lookup_fmap, Hi.
Qed.

Lemma seconds_between_instants (t p : Z) :
  seconds_between (Instant t) (Instant p)
  = Ok (Some ((t - p) # nanoseconds_per_second)).
Proof. done. Qed.

Lemma less_than_a_minute (t p : Z) :
  negb (Qle_bool 60 ((t - p) # nanoseconds_per_second)) = rapid_after p t.
Proof.
  unfold rapid_after, Qle_bool, nanoseconds_per_second. simpl.
  case_bool_decide as Hlt; [apply negb_true_iff, Z.leb_gt
                           | apply negb_false_iff, Z.leb_le]; lia.
Qed.






(** The window of the specification on a user with two rows. *)
Example rapid_window_examples :
  rapid_transactions_flag [u1_at "A" 0; u1_at "B" 59] = Ok [false; true]
  ∧ rapid_transactions_flag [u1_at "A" 0; u1_at "B" 60] = Ok [false; false]
  ∧ rapid_transactions_flag [u1_at "A" 0; u1_at "B" 61] = Ok [false; false].
Proof. repeat split; vm_compute; reflexivity. Qed.

(** ** Rule 3 and the per-user order by time *)

Lemma records_of_app (u : option string) (k : nat) (l1 l2 : list Transaction) :
  records_of u k (l1 ++ l2)
  = records_of u k l1 ++ records_of u (k + length l1) l2.
Proof.
  revert k. induction l1 as [|x l1 IH]; intros k; simpl.
  - by rewrite Nat.add_0_r.
  - rewrite IH, Nat.add_succ_r. by destruct (bool_decide _).
Qed.

Lemma elem_of_records_of (u : option string) (k : nat) (l : list Transaction)
    (b : nat * Z) :
  b ∈ records_of u k l →
  ∃ j r, l !! j = Some r ∧ user_id r = u
         ∧ b = ((k + j)%nat, instant_of (timestamp r)).
Proof.
  revert k. induction l as [|x l IH]; intros k; simpl.
  - by intros ?%elem_of_nil.
  - assert (b ∈ records_of u (S k) l →
            ∃ j r, (x :: l) !! j = Some r ∧ user_id r = u
                   ∧ b = ((k + j)%nat, instant_of (timestamp r))) as Htail.
    { intros (j & r & Hj & Hu & ->)%IH. exists (S j), r.
      repeat split; [done..|]. f_equal. lia. }
    case_bool_decide as Hx; [|done].
    intros [->|Hb]%elem_of_cons; [|by apply Htail].
    exists 0%nat, x. repeat split; [done|]. f_equal. lia.
Qed.

Lemma records_of_position (u : option string) (k : nat)
    (l : list Transaction) (b : nat * Z) :
  b ∈ records_of u k l → (k ≤ b.1 < k + length l)%nat.
Proof.
  intros (j & r & Hj%lookup_lt_Some & _ & ->)%elem_of_records_of. simpl. lia.
Qed.

Lemma insert_by_time_least (x : nat * Z) (s : list (nat * Z)) :
  Forall (λ y, x.2 ≤ y.2) s → insert_by_time x s = x :: s.
Proof.
  destruct 1 as [|y s Hy _]; simpl; [done|].
  by rewrite (proj2 (Z.leb_le _ _) Hy).
Qed.

(** Sorting records that are in the order of their times changes
    nothing. *)
Lemma sort_by_time_sorted (s : list (nat * Z)) :
  StronglySorted (λ a b, a.2 ≤ b.2) s → sort_by_time s = s.
Proof.
  induction 1 as [|x s Hs IH Hx]; simpl; [done|].
  fold (sort_by_time s). rewrite IH. by apply insert_by_time_least.
Qed.

Lemma per_user_time_order_tail (x : Transaction) (l : list Transaction) :
  per_user_time_order (x :: l) → per_user_time_order l.
Proof.
  intros Hord i j ri rj Hlt Hi Hj. apply (Hord (S i) (S j)); [lia|done..].
Qed.

Lemma records_of_sorted (u : option string) (k : nat) (l : list Transaction) :
  per_user_time_order l →
  StronglySorted (λ a b, a.2 ≤ b.2) (records_of u k l).
Proof.
  revert k. induction l as [|x l IH]; intros k Hord; simpl; [constructor|].
  pose proof (per_user_time_order_tail _ _ Hord) as Htail.
  case_bool_decide as Hx; [|by apply IH].
  constructor; [by apply IH|]. apply Forall_forall.
  intros b (j & r & Hj & Hu & ->)%elem_of_records_of. simpl.
  apply (Hord 0%nat (S j)); [lia|done..|congruence].
Qed.

Lemma predecessor_time_absent (i : nat) (s : list (nat * Z)) :
  (∀ b, b ∈ s → b.1 ≠ i) → predecessor_time i s = None.
Proof.
  induction s as [|a s IH]; intros Hs; [done|]. simpl.
  destruct s as [|b s]; [done|].
  rewrite bool_decide_eq_false_2 by (apply Hs; right; by left).
  apply IH. intros c Hc. apply Hs. by right.
Qed.

(** In a list of records where position [i] occurs once, the predecessor
    of that record is the last record before it. *)
Lemma predecessor_time_middle (i : nat) (t : Z) (s1 s2 : list (nat * Z)) :
  (∀ b, b ∈ s1 → b.1 ≠ i) → (∀ b, b ∈ s2 → b.1 ≠ i) →
  predecessor_time i (s1 ++ (i, t) :: s2) = snd <$> last s1.
Proof.
  intros Hs1 Hs2. induction s1 as [|a s1 IH].
  - simpl. destruct s2 as [|b s2]; [done|].
    rewrite bool_decide_eq_false_2 by (apply Hs2; by left).
    by apply predecessor_time_absent.
  - destruct s1 as [|b s1].
    + simpl. by rewrite bool_decide_eq_true_2.
    + change (predecessor_time i ((a :: b :: s1) ++ (i, t) :: s2))
        with (if bool_decide (b.1 = i) then Some a.2
              else predecessor_time i ((b :: s1) ++ (i, t) :: s2)).
      rewrite bool_decide_eq_false_2 by (apply Hs1; right; by left).
      rewrite IH by (intros c Hc; apply Hs1; by right).
      by rewrite (last_cons_cons a b s1).
Qed.

(** What [groupby_shift] remembers of a user is its last record so far. *)
Lemma seen_after_last (m : gmap string Timestamp) (u : string) (k : nat)
    (l : list Transaction) :
  (∀ r, r ∈ l → keyed r) →
  seen_after m l !! u
  = match last (records_of (Some u) k l) with
    | Some b => Some (Instant b.2)
    | None => m !! u
    end.
Proof.
  revert m k. induction l as [|x l IH]; intros m k Hkeyed; [done|].
  simpl. rewrite (IH _ (S k)) by (intros r Hr; apply Hkeyed; by right).
  destruct (Hkeyed x) as [[v Hv] [ns Hns]]; [by left|]. rewrite Hv.
  case_bool_decide as Hx.
  - injection Hx as ->. rewrite last_cons.
    destruct (last (records_of _ _ l)); [done|].
    by rewrite lookup_insert_eq, Hns.
  - destruct (last (records_of _ _ l)); [done|].
    rewrite lookup_insert_ne; [done | congruence].
Qed.

(** On keyed rows the previous time of a row is missing or an instant:
    the last record of its user before it, if there is one. *)
Lemma prev_transaction_time_keyed (l1 l2 : list Transaction)
    (r : Transaction) (u : string) :
  (∀ r', r' ∈ l1 → keyed r') → user_id r = Some u →
  prev_transaction_time (l1 ++ r :: l2) !! length l1
  = Some (from_option Instant NaT
            (snd <$> last (records_of (Some u) 0 l1))).
Proof.
  intros Hkeyed Hu. unfold prev_transaction_time.
  rewrite groupby_shift_lookup, Hu, (seen_after_last _ _ 0) by done.
  by destruct (last _).
Qed.

Lemma sorted_predecessor_time_ordered (l1 l2 : list Transaction)
    (r : Transaction) (u : string) :
  per_user_time_order (l1 ++ r :: l2) → user_id r = Some u →
  sorted_predecessor_time (l1 ++ r :: l2) (length l1)
  = snd <$> last (records_of (Some u) 0 l1).
Proof.
  intros Hord Hu. unfold sorted_predecessor_time.
  rewrite list_lookup_middle by done. simpl. rewrite Hu.
  rewrite sort_by_time_sorted by by apply records_of_sorted.
  rewrite records_of_app. simpl. rewrite bool_decide_eq_true_2 by done.
  apply predecessor_time_middle.
  - intros b Hb%records_of_position. lia.
  - intros b Hb%records_of_position. lia.
Qed.

Lemma keyed_parsed (l : list Transaction) :
  (∀ r, r ∈ l → keyed r) → ∀ r x, r ∈ l → timestamp r ≠ Text x.
Proof. intros Hkeyed r x Hr. destruct (Hkeyed r Hr) as [_ [ns ->]]. done. Qed.

(** C1 (as amended): on rows that have a user and a parsed timestamp, and
    where every user's records occur in the input in the order of their
    times, the Rule Engine returns, and for every row the previous time it
    compares with is that of the positional predecessor of the row among
    its user's records sorted by time (ties by input order); R3 is the
    verdict on the time elapsed since that predecessor. *)
Theorem rapid_rule_in_time_order (l : list Transaction) :
  (∀ r, r ∈ l → keyed r) →
  per_user_time_order l →
  ∃ rapid,
    rapid_transactions_flag l = Ok rapid
    ∧ ∀ i r, l !! i = Some r →
        prev_transaction_time l !! i
        = Some (from_option Instant NaT (sorted_predecessor_time l i))
        ∧ rapid !! i = sorted_rapid_flag l i.
Proof.
  intros Hkeyed Hord.
  destruct (rapid_transactions_flag_total l (keyed_parsed l Hkeyed))
    as [rapid Hrapid].
  exists rapid. split; [done|]. intros i r Hr.
  destruct (Hkeyed r) as [[u Hu] [ns Hns]];
    [by apply list_elem_of_lookup_2 in Hr|].
  assert (prev_transaction_time l !! i
          = Some (from_option Instant NaT (sorted_predecessor_time l i)))
    as Hprev.
  { destruct (list_elem_of_split_length _ _ _ Hr) as (l1 & l2 & -> & ->).
    rewrite (sorted_predecessor_time_ordered _ _ _ u) by done.
    apply prev_transaction_time_keyed; [|done].
    intros r' Hr'. apply Hkeyed, elem_of_app. by left. }
  split; [done|].
  destruct (rapid_transactions_flag_lookup _ _ i r _ Hrapid Hr Hprev)
    as (d & Hd & ->).
  unfold sorted_rapid_flag. rewrite Hr. simpl. f_equal.
  rewrite Hns in Hd |- *. destruct (sorted_predecessor_time l i) as [p|];
    simpl in Hd; injection Hd as <-; [|done].
  apply less_than_a_minute.
Qed.

Lemma rapid_rule_in_time_order_witness :
  (∀ r, r ∈ scenario_cleaned → keyed r)
  ∧ per_user_time_order scenario_cleaned
  ∧ ∃ rapid,
      rapid_transactions_flag scenario_cleaned = Ok rapid
      ∧ ∀ i r, scenario_cleaned !! i = Some r →
          prev_transaction_time scenario_cleaned !! i
          = Some (from_option Instant NaT
                    (sorted_predecessor_time scenario_cleaned i))
          ∧ rapid !! i = sorted_rapid_flag scenario_cleaned i.
Proof.
  assert (∀ r, r ∈ scenario_cleaned → keyed r) as Hkeyed.
  { intros r Hr. unfold scenario_cleaned in Hr.
    repeat (apply elem_of_cons in Hr as [->|Hr]);
      [split; eexists; reflexivity ..|by apply elem_of_nil in Hr]. }
  assert (per_user_time_order scenario_cleaned) as Hord.
  { intros i j ri rj Hlt Hi Hj _.
    destruct i as [|[|i]], j as [|[|j]]; simpl in Hi, Hj; try lia;
      simplify_eq. vm_compute. discriminate. }
  split; [exact Hkeyed|]. split; [exact Hord|].
  exact (rapid_rule_in_time_order scenario_cleaned Hkeyed Hord).
Defined.

(** C1, counterexample: a user whose second row in the input is 100
    seconds earlier than the first.  The code compares the second row with
    the first (the previous row in input order) and flags it; in the
    order by time the second row has no predecessor and R3 is false. *)
Lemma rapid_rule_in_time_order_counterexample :
  prev_transaction_time [u1_at "A" 100; u1_at "B" 0] !! 1%nat
    = Some (Instant (t0 + 100 * Z.pos nanoseconds_per_second))
  ∧ sorted_predecessor_time [u1_at "A" 100; u1_at "B" 0] 1 = None
  ∧ rapid_transactions_flag [u1_at "A" 100; u1_at "B" 0] = Ok [false; true]
  ∧ sorted_rapid_flag [u1_at "A" 100; u1_at "B" 0] 1 = Some false.
Proof. repeat split; vm_compute; reflexivity. Qed.

(** ** The Rule Engine leaves its input alone *)

Lemma assoc_del_app {V} (name : string) (l1 l2 : list (string * V)) :
  assoc_del name (l1 ++ l2) = assoc_del name l1 ++ assoc_del name l2.
Proof. unfold assoc_del. induction l1 as [|c l1 IH]; simpl; [done|].
  destruct (negb _); simpl; by rewrite IH. Qed.

Lemma with_scores_fresh (f : DataFrame) (rapid : list bool) :
  assoc_get "prev_transaction_time" (columns f) = None →
  assoc_get "rule_based_fraud_flag" (columns f) = None →
  assoc_get "fraud_score" (columns f) = None →
  assoc_del "prev_transaction_time" (with_scores f rapid)
  = columns f
    ++ [("rule_based_fraud_flag"%string,
         BoolSeries (combined_flag (rows f) rapid));
        ("fraud_score"%string, IntSeries (combined_score (rows f) rapid))].
Proof.
  intros Hprev Hflag Hscore. unfold with_scores, with_prev.
  rewrite (assoc_set_fresh "prev_transaction_time") by done.
  rewrite (assoc_set_fresh "rule_based_fraud_flag")
    by by rewrite assoc_get_app_fresh.
  rewrite (assoc_set_fresh "fraud_score")
    by by rewrite !assoc_get_app_fresh.
  rewrite <- !app_assoc, assoc_del_app, assoc_del_fresh by done.
  reflexivity.
Qed.

(** C10: the Rule Engine modifies no frame that exists when it is called,
    the caller's frame among them, whether it returns or raises.  When it
    returns, the result is a new frame with the rows of the input, equal
    in their six attributes, and, for an input without columns of those
    names, its columns are those of the input followed by
    [rule_based_fraud_flag] and [fraud_score]: the temporary
    [prev_transaction_time] is gone. *)
Theorem rule_engine_frame (h : list DataFrame) (df : nat) (f : DataFrame)
    (res : Result nat) (h' : list DataFrame) :
  h !! df = Some f →
  apply_rule_based_detection df h = (res, h') →
  (∀ r g, h !! r = Some g → h' !! r = Some g)
  ∧ ∀ out, res = Ok out →
      ∃ f', h' !! out = Some f'
            ∧ h !! out = None
            ∧ rows f' = rows f
            ∧ (assoc_get "prev_transaction_time" (columns f) = None →
               assoc_get "rule_based_fraud_flag" (columns f) = None →
               assoc_get "fraud_score" (columns f) = None →
               ∃ flag sc,
                 columns f'
                 = columns f
                   ++ [("rule_based_fraud_flag"%string, BoolSeries flag);
                       ("fraud_score"%string, IntSeries sc)]).
Proof.
  intros Hf. rewrite (apply_rule_based_detection_run _ _ _ Hf).
  destruct (rapid_transactions_flag (rows f)) as [rapid|e];
    intros [= <- <-]; (split; [|intros out [= <-]]).
  - intros r g Hr. by apply lookup_app_l_Some.
  - eexists. split; [|split; [|split]].
    + rewrite lookup_app_r by lia.
      replace (S (length h) - length h)%nat with 1%nat by lia. done.
    + apply lookup_ge_None. lia.
    + done.
    + intros Hprev Hflag Hscore. simpl. rewrite with_scores_fresh by done.
      eauto.
  - intros r g Hr. by apply lookup_app_l_Some.
Qed.

Lemma rule_engine_frame_witness :
  [source_frame scenario_cleaned] !! 0%nat
    = Some (source_frame scenario_cleaned)
  ∧ (∀ r g, [source_frame scenario_cleaned] !! r = Some g →
       (apply_rule_based_detection 0 [source_frame scenario_cleaned]).2 !! r
       = Some g)
  ∧ ∀ out,
      (apply_rule_based_detection 0 [source_frame scenario_cleaned]).1
      = Ok out →
      ∃ f', (apply_rule_based_detection 0
               [source_frame scenario_cleaned]).2 !! out = Some f'
            ∧ [source_frame scenario_cleaned] !! out = None
            ∧ rows f' = rows (source_frame scenario_cleaned)
            ∧ (assoc_get "prev_transaction_time"
                 (columns (source_frame scenario_cleaned)) = None →
               assoc_get "rule_based_fraud_flag"
                 (columns (source_frame scenario_cleaned)) = None →
               assoc_get "fraud_score"
                 (columns (source_frame scenario_cleaned)) = None →
               ∃ flag sc,
                 columns f'
                 = columns (source_frame scenario_cleaned)
                   ++ [("rule_based_fraud_flag"%string, BoolSeries flag);
                       ("fraud_score"%string, IntSeries sc)]).
Proof.
  split; [reflexivity|].
  apply (rule_engine_frame [source_frame scenario_cleaned] 0
           (source_frame scenario_cleaned)); [reflexivity|].
  apply surjective_pairing.
Defined.

(** On the scenario: the frame given to the Rule Engine is still the
    first object of the heap, and the result has the two new columns. *)
Example rule_engine_frame_scenario :
  (apply_rule_based_detection 0 [source_frame scenario_cleaned]).1 = Ok 2%nat
  ∧ (apply_rule_based_detection 0 [source_frame scenario_cleaned]).2 !! 0%nat
    = Some (source_frame scenario_cleaned)
  ∧ (apply_rule_based_detection 0 [source_frame scenario_cleaned]).2 !! 2%nat
    = Some (mkFrame scenario_cleaned
              [("rule_based_fraud_flag"%string, BoolSeries [true; true]);
               ("fraud_score"%string, IntSeries [2; 1])]).
Proof. repeat split; vm_compute; reflexivity. Qed.

(** ** The summary *)

Lemma sum_bool_count {A} (p : A → bool) (l : list A) :
  sum_bool (p <$> l) = count_where p l.
Proof.
  unfold count_where. induction l as [|x l IH]; [done|]. csimpl.
  rewrite IH. destruct (p x); simpl; lia.
Qed.

Lemma sum_option_bool_count (l : list Transaction) :
  sum_option_bool (is_fraud <$> l)
  = count_where (λ r, bool_decide (is_fraud r = Some true)) l.
Proof.
  unfold count_where. induction l as [|x l IH]; [done|]. csimpl.
  rewrite IH. by destruct (is_fraud x) as [[]|]; simpl; try lia.
Qed.

Lemma zip3_columns (l : list Transaction) (flag : list bool) (sc : list Z) :
  length flag = length l → length sc = length l →
  transaction <$> zip3 l flag sc = l
  ∧ rule_based_fraud_flag <$> zip3 l flag sc = flag
  ∧ fraud_score <$> zip3 l flag sc = sc.
Proof.
  revert flag sc. induction l as [|r l IH]; intros [|b flag] [|n sc];
    simpl; try done. intros [= Hflag] [= Hsc].
  destruct (IH _ _ Hflag Hsc) as (Hl & Hb & Hn).
  repeat split; csimpl; by f_equal.
Qed.

Lemma count_where_fmap {A B} (p : B → bool) (g : A → B) (l : list A) :
  count_where p (g <$> l) = count_where (λ x, p (g x)) l.
Proof. unfold count_where. by rewrite filter_fmap, length_fmap. Qed.

Lemma summary_statistics_run (df : nat) (f : DataFrame) (flag : list bool)
    (sc : list Z) (h : list DataFrame) :
  h !! df = Some f →
  assoc_get "rule_based_fraud_flag" (columns f) = Some (BoolSeries flag) →
  assoc_get "fraud_score" (columns f) = Some (IntSeries sc) →
  summary_statistics df h
  = (Ok (mkSummary (Z.of_nat (length (rows f)))
           (sum_option_bool (is_fraud <$> rows f))
           (sum_bool flag)
           (sum_bool ((λ s, 2 <=? s) <$> sc))), h).
Proof.
  intros Hf Hflag Hsc. unfold summary_statistics, get_column.
  rewrite (read_bind _ _ _ _ Hf).
  rewrite bind_assoc, (read_bind _ _ _ _ Hf), Hflag, ret_bind.
  rewrite bind_assoc, (read_bind _ _ _ _ Hf), Hsc, ret_bind.
  reflexivity.
Qed.

Lemma dropna_source_frame (l : list Transaction) :
  normalized_frame (take_rows (notna_mask (mkFrame l [])) (mkFrame l []))
  = source_frame (normalized <$> List.filter notna_row l).
Proof.
  unfold normalized_frame, take_rows, notna_mask, source_frame. simpl.
  do 2 f_equal. apply select_filter.
Qed.

(** The pipeline on a source frame, started on the empty heap: the
    summary is computed from the rows that the two stages return. *)
Lemma run_pipeline_run (parse_datetime : string → option Z)
    (to_sql : DataFrame → Result unit) (l : list Transaction) (s : Summary) :
  run (run_pipeline parse_datetime to_sql (source_frame l)) = Ok s →
  ∃ canonical rapid,
    clean parse_datetime l = Ok canonical
    ∧ rapid_transactions_flag canonical = Ok rapid
    ∧ s = mkSummary (Z.of_nat (length canonical))
            (sum_option_bool (is_fraud <$> canonical))
            (sum_bool (combined_flag canonical rapid))
            (sum_bool ((λ n, 2 <=? n) <$> combined_score canonical rapid)).
Proof.
  unfold run, run_pipeline, ingest_data. rewrite alloc_bind, bind_run.
  rewrite (clean_data_run _ _ (source_frame l)) by apply lookup_snoc.
  rewrite clean_run.
  change (rows (deduplicated (source_frame l))) with (first_occurrences l).
  destruct (to_datetime _ _) as [ts|e]; [|done].
  cbv beta iota zeta. simpl result_bind.
  set (canonical := normalized <$> List.filter notna_row
                      (zip_with with_timestamp (first_occurrences l) ts)).
  set (h2 := ([] ++ [source_frame l]) ++ _).
  assert (h2 !! S (length ([] ++ [source_frame l]))
          = Some (source_frame canonical)) as Hclean.
  { unfold h2, canonical. simpl. f_equal. apply dropna_source_frame. }
  rewrite bind_run, (apply_rule_based_detection_run _ _ _ Hclean).
  change (rows (source_frame canonical)) with canonical.
  destruct (rapid_transactions_flag canonical) as [rapid|e] eqn:Hrapid;
    [|done].
  cbv beta iota. unfold store_in_database.
  set (out := mkFrame canonical
                (assoc_del "prev_transaction_time"
                   (with_scores (source_frame canonical) rapid))).
  set (h4 := h2 ++ _).
  assert (h4 !! S (length h2) = Some out) as Hout.
  { unfold h4. rewrite lookup_app_r by lia.
    by replace (S (length h2) - length h2)%nat with 1%nat by lia. }
  rewrite bind_assoc, (read_bind _ _ _ _ Hout), lift_bind.
  destruct (to_sql out); [|done].
  rewrite (summary_statistics_run _ out (combined_flag canonical rapid)
             (combined_score canonical rapid)); [|done..].
  intros [= <-]. by exists canonical, rapid.
Qed.

(** C9: when the pipeline returns a summary, the Cleaner and the Rule
    Engine have returned, and the summary counts the scored rows: all of
    them, those whose [is_fraud] is true, those whose flag is true and
    those whose score is at least 2. *)
Theorem summary_counts (parse_datetime : string → option Z)
    (to_sql : DataFrame → Result unit) (l : list Transaction) (s : Summary) :
  run (run_pipeline parse_datetime to_sql (source_frame l)) = Ok s →
  ∃ canonical scored,
    clean parse_datetime l = Ok canonical
    ∧ score canonical = Ok scored
    ∧ total_records s = Z.of_nat (length scored)
    ∧ original_fraud_flags s
      = count_where (λ x, bool_decide (is_fraud (transaction x) = Some true))
          scored
    ∧ rule_based_flags s = count_where rule_based_fraud_flag scored
    ∧ high_risk_transactions s = count_where (λ x, 2 <=? fraud_score x) scored.
Proof.
  intros (canonical & rapid & Hclean & Hrapid & ->)%run_pipeline_run.
  exists canonical, (zip3 canonical (combined_flag canonical rapid)
                       (combined_score canonical rapid)).
  split; [done|]. split; [by rewrite score_run, Hrapid|].
  pose proof (rapid_transactions_flag_length _ _ Hrapid) as Hlen.
  pose proof (high_amount_flag_length canonical) as Hamount.
  pose proof (merchant_risk_flag_length canonical) as Hmerchant.
  assert (length (combined_flag canonical rapid) = length canonical) as Hflag
      by (unfold combined_flag; rewrite !length_zip_with; lia).
  assert (length (combined_score canonical rapid) = length canonical) as Hsc
      by (unfold combined_score; rewrite !length_zip_with, !length_fmap; lia).
  destruct (zip3_columns _ _ _ Hflag Hsc) as (Hl & Hb & Hn). simpl.
  split; [by rewrite zip3_length|]. split; [|split].
  - rewrite <- Hl at 1. rewrite sum_option_bool_count.
    by rewrite count_where_fmap.
  - rewrite <- Hb at 1. apply sum_bool_count.
  - rewrite <- Hn at 1. rewrite <- list_fmap_compose. apply sum_bool_count.
Qed.

Lemma summary_counts_witness :
  run (run_pipeline sample_parser (λ _, Ok ()) (source_frame scenario))
    = Ok (mkSummary 2 0 2 1)
  ∧ ∃ canonical scored,
      clean sample_parser scenario = Ok canonical
      ∧ score canonical = Ok scored
      ∧ total_records (mkSummary 2 0 2 1) = Z.of_nat (length scored)
      ∧ original_fraud_flags (mkSummary 2 0 2 1)
        = count_where
            (λ x, bool_decide (is_fraud (transaction x) = Some true)) scored
      ∧ rule_based_flags (mkSummary 2 0 2 1)
        = count_where rule_based_fraud_flag scored
      ∧ high_risk_transactions (mkSummary 2 0 2 1)
        = count_where (λ x, 2 <=? fraud_score x) scored.
Proof.
  split; [vm_compute; reflexivity|].
  apply (summary_counts sample_parser (λ _, Ok ()) scenario).
  vm_compute; reflexivity.
Defined.

(** * Further properties of the pipeline *)

(** ** The Cleaner: what it returns *)

Lemma clean_row_origin (parse_datetime : string → option Z)
    (l out : list Transaction) (r : Transaction) :
  clean parse_datetime l = Ok out → r ∈ out →
  ∃ r0, r0 ∈ first_occurrences l
        ∧ survives parse_datetime r0 = true
        ∧ r = cleaned parse_datetime r0.
Proof.
  intros ->%clean_ok (r0 & -> & [Hr0 Hs]%elem_of_filter)%list_elem_of_fmap.
  eauto.
Qed.

Lemma survives_complete (parse_datetime : string → option Z)
    (r : Transaction) :
  survives parse_datetime r = true →
  is_Some (transaction_id r) ∧ is_Some (amount r) ∧ is_Some (merchant r)
  ∧ is_Some (user_id r) ∧ is_Some (is_fraud r).
Proof.
  unfold survives, notna_row. simpl.
  rewrite !andb_true_iff, !bool_decide_eq_true. tauto.
Qed.

(** X1: every row that the Cleaner returns has a value in each of its six
    cells, the label [is_fraud] included, and its timestamp is parsed. *)
Theorem clean_output_complete (parse_datetime : string → option Z)
    (l out : list Transaction) (r : Transaction) :
  clean parse_datetime l = Ok out → r ∈ out →
  is_Some (transaction_id r)
  ∧ (∃ ns, timestamp r = Instant ns)
  ∧ is_Some (amount r)
  ∧ is_Some (merchant r)
  ∧ is_Some (user_id r)
  ∧ is_Some (is_fraud r).
Proof.
  intros Hout (r0 & _ & Hs & ->)%(clean_row_origin _ _ _ _ Hout).
  destruct (cleaned_again _ _ Hs) as (Hts & _ & _).
  destruct (survives_complete _ _ Hs) as (Hid & Ha & Hm & Hu & Hf).
  repeat split; try done. simpl. by destruct Hm as [m ->].
Qed.

Lemma clean_output_complete_witness :
  clean sample_parser [txn_A_no_amount; txn_A; txn_B]
    = Ok [with_timestamp txn_B (Instant (t0 + 30000000000))]
  ∧ with_timestamp txn_B (Instant (t0 + 30000000000))
      ∈ [with_timestamp txn_B (Instant (t0 + 30000000000))]
  ∧ is_Some (transaction_id
               (with_timestamp txn_B (Instant (t0 + 30000000000))))
  ∧ (∃ ns, timestamp (with_timestamp txn_B (Instant (t0 + 30000000000)))
           = Instant ns)
  ∧ is_Some (amount (with_timestamp txn_B (Instant (t0 + 30000000000))))
  ∧ is_Some (merchant (with_timestamp txn_B (Instant (t0 + 30000000000))))
  ∧ is_Some (user_id (with_timestamp txn_B (Instant (t0 + 30000000000))))
  ∧ is_Some (is_fraud (with_timestamp txn_B (Instant (t0 + 30000000000)))).
Proof.
  assert (clean sample_parser [txn_A_no_amount; txn_A; txn_B]
          = Ok [with_timestamp txn_B (Instant (t0 + 30000000000))]) as Hout
    by (vm_compute; reflexivity).
  split; [exact Hout|]. split; [apply list_elem_of_here|].
  exact (clean_output_complete sample_parser _ _ _ Hout
           (list_elem_of_here _ _)).
Defined.

(** X2: every merchant that the Cleaner returns consists of word
    characters and white space only. *)
Theorem clean_output_merchant (parse_datetime : string → option Z)
    (l out : list Transaction) (r : Transaction) (m : string) :
  clean parse_datetime l = Ok out → r ∈ out → merchant r = Some m →
  Forall kept_character (list_ascii_of_string m).
Proof.
  intros Hout (r0 & _ & _ & ->)%(clean_row_origin _ _ _ _ Hout). simpl.
  destruct (merchant r0) as [m0|]; simpl; [|done]. intros [= <-].
  unfold Text.remove_special. rewrite list_ascii_of_string_of_list_ascii.
  eapply Forall_impl; [apply filter_Forall|].
  intros c Hc. unfold kept_character. by apply orb_true_iff.
Qed.

Lemma clean_output_merchant_witness :
  clean sample_parser [txn_C]
    = Ok [with_merchant (with_timestamp txn_C (Instant (t0 + 30000000000)))
            (Some " Acme Inc"%string)]
  ∧ with_merchant (with_timestamp txn_C (Instant (t0 + 30000000000)))
      (Some " Acme Inc"%string)
      ∈ [with_merchant (with_timestamp txn_C (Instant (t0 + 30000000000)))
           (Some " Acme Inc"%string)]
  ∧ merchant (with_merchant
                (with_timestamp txn_C (Instant (t0 + 30000000000)))
                (Some " Acme Inc"%string)) = Some " Acme Inc"%string
  ∧ Forall kept_character (list_ascii_of_string " Acme Inc").
Proof.
  assert (clean sample_parser [txn_C]
          = Ok [with_merchant
                  (with_timestamp txn_C (Instant (t0 + 30000000000)))
                  (Some " Acme Inc"%string)]) as Hout
    by (vm_compute; reflexivity).
  split; [exact Hout|]. split; [apply list_elem_of_here|].
  split; [reflexivity|].
  exact (clean_output_merchant sample_parser _ _ _ _ Hout
           (list_elem_of_here _ _) eq_refl).
Defined.

(** ** The Cleaner: its effect on the heap *)

Lemma take_rows_column_names (mask : list bool) (f : DataFrame) :
  (columns (take_rows mask f)).*1 = (columns f).*1.
Proof.
  unfold take_rows. simpl. rewrite <- list_fmap_compose.
  by apply list_fmap_ext.
Qed.

(** X3: the Cleaner modifies no frame that exists when it is called, the
    caller's frame among them, whether it returns or raises; what it
    returns is a new frame with the columns of the input. *)
Theorem clean_data_frame (parse_datetime : string → option Z)
    (h : list DataFrame) (df : nat) (f : DataFrame) (res : Result nat)
    (h' : list DataFrame) :
  h !! df = Some f →
  clean_data parse_datetime df h = (res, h') →
  (∀ r g, h !! r = Some g → h' !! r = Some g)
  ∧ ∀ out, res = Ok out →
      h !! out = None
      ∧ ∃ f', h' !! out = Some f' ∧ (columns f').*1 = (columns f).*1.
Proof.
  intros Hf. rewrite (clean_data_run _ _ _ _ Hf).
  destruct (to_datetime _ _) as [ts|e]; cbv zeta;
    intros [= <- <-]; (split; [|intros out [= <-]]).
  - intros r g Hr. by apply lookup_app_l_Some.
  - split; [apply lookup_ge_None; lia|]. eexists. split.
    + rewrite lookup_app_r by lia.
      by replace (S (length h) - length h)%nat with 1%nat by lia.
    + unfold normalized_frame. cbn [columns].
      rewrite take_rows_column_names. cbn [columns].
      apply take_rows_column_names.
  - intros r g Hr. by apply lookup_app_l_Some.
Qed.

Lemma clean_data_frame_witness :
  [source_frame scenario] !! 0%nat = Some (source_frame scenario)
  ∧ (∀ r g, [source_frame scenario] !! r = Some g →
       (clean_data sample_parser 0 [source_frame scenario]).2 !! r = Some g)
  ∧ ∀ out,
      (clean_data sample_parser 0 [source_frame scenario]).1 = Ok out →
      [source_frame scenario] !! out = None
      ∧ ∃ f',
          (clean_data sample_parser 0 [source_frame scenario]).2 !! out
          = Some f'
          ∧ (columns f').*1 = (columns (source_frame scenario)).*1.
Proof.
  split; [reflexivity|].
  apply (clean_data_frame sample_parser [source_frame scenario] 0
           (source_frame scenario)); [reflexivity|].
  apply surjective_pairing.
Defined.

(** ** The Cleaner: when it fails *)

Lemma to_datetime_raise_inv (parse_datetime : string → option Z)
    (s : list Timestamp) (e : exn) :
  to_datetime parse_datetime s = Raise e →
  e = ValueError ∧ ∃ x, Text x ∈ s ∧ parse_datetime x = None.
Proof.
  unfold to_datetime. induction s as [|t s IH]; [done|]. simpl.
  destruct t as [|x|ns]; simpl.
  - destruct (traverse _ s) as [ts|e']; simpl; [done|].
    intros [= ->]. destruct IH as (-> & x & Hx & Hnone); [done|].
    split; [done|]. exists x. split; [by right | done].
  - destruct (parse_datetime x) eqn:Hparse; simpl.
    + destruct (traverse _ s) as [ts|e']; simpl; [done|].
      intros [= ->]. destruct IH as (-> & y & Hy & Hnone); [done|].
      split; [done|]. exists y. split; [by right | done].
    + intros [= <-]. split; [done|]. exists x. split; [by left | done].
  - destruct (traverse _ s) as [ts|e']; simpl; [done|].
    intros [= ->]. destruct IH as (-> & x & Hx & Hnone); [done|].
    split; [done|]. exists x. split; [by right | done].
Qed.

(** X4: the Cleaner fails in one way only: it raises [ValueError] exactly
    when a row kept by deduplication has a text timestamp that the parser
    rejects.  A bad timestamp on a discarded duplicate does no harm. *)
Theorem clean_raises_iff (parse_datetime : string → option Z)
    (l : list Transaction) (e : exn) :
  clean parse_datetime l = Raise e
  ↔ e = ValueError
    ∧ ∃ r x, r ∈ first_occurrences l ∧ timestamp r = Text x
             ∧ parse_datetime x = None.
Proof.
  rewrite clean_run. split.
  - destruct (to_datetime _ _) as [ts|e'] eqn:E; simpl; [done|].
    intros [= <-].
    destruct (to_datetime_raise_inv _ _ _ E) as (-> & x & Hx & Hnone).
    split; [done|]. apply list_elem_of_fmap in Hx as (r & Hr & Hin).
    by exists r, x.
  - intros (-> & r & x & Hr & Hx & Hnone).
    rewrite (to_datetime_raises _ _ x); [done| |done].
    rewrite <- Hx. by apply list_elem_of_fmap_2.
Qed.

(** ** The Cleaner: duplicates *)

Lemma unseen_app (seen : gset (option string)) (l1 l2 : list Transaction) :
  unseen seen (l1 ++ l2)
  = unseen seen l1
    ++ unseen (list_to_set (transaction_id <$> l1) ∪ seen) l2.
Proof.
  revert seen. induction l1 as [|x l1 IH]; intros seen.
  - simpl. by rewrite (left_id_L ∅ (∪)).
  - rewrite <- app_comm_cons, !unseen_cons, IH.
    replace (list_to_set (transaction_id <$> x :: l1) ∪ seen)
      with (list_to_set (transaction_id <$> l1)
              ∪ ({[transaction_id x]} ∪ seen) : gset (option string)).
    + by case_bool_decide.
    + csimpl. rewrite (assoc_L (∪)).
      by rewrite (comm_L (∪) _ {[transaction_id x]}).
Qed.

Lemma unseen_known (seen : gset (option string)) (r : Transaction)
    (l : list Transaction) :
  transaction_id r ∈ seen → unseen seen (r :: l) = unseen seen l.
Proof.
  intros Hr. rewrite unseen_cons, bool_decide_eq_true_2 by done.
  f_equal. by apply subseteq_union_1_L, singleton_subseteq_l.
Qed.

Lemma first_occurrences_later_duplicate (l1 l2 l3 : list Transaction)
    (r r' : Transaction) :
  transaction_id r' = transaction_id r →
  first_occurrences (l1 ++ r :: l2 ++ r' :: l3)
  = first_occurrences (l1 ++ r :: l2 ++ l3).
Proof.
  intros Hid. unfold first_occurrences.
  change (r :: l2 ++ r' :: l3) with ((r :: l2) ++ r' :: l3).
  change (r :: l2 ++ l3) with ((r :: l2) ++ l3).
  rewrite !app_assoc, !(unseen_app _ (l1 ++ r :: l2)).
  f_equal. apply unseen_known. rewrite Hid.
  apply elem_of_union_l, elem_of_list_to_set, list_elem_of_fmap_2.
  apply elem_of_app. right. by left.
Qed.

(** X5: a row whose identifier occurs earlier in the input has no effect
    on the Cleaner, whatever its cells hold: with or without it the
    Cleaner returns the same rows, or raises the same exception. *)
Theorem clean_ignores_later_duplicate (parse_datetime : string → option Z)
    (l1 l2 l3 : list Transaction) (r r' : Transaction) :
  transaction_id r' = transaction_id r →
  clean parse_datetime (l1 ++ r :: l2 ++ r' :: l3)
  = clean parse_datetime (l1 ++ r :: l2 ++ l3).
Proof.
  intros Hid. rewrite !clean_run.
  by rewrite (first_occurrences_later_duplicate _ _ _ _ _ Hid).
Qed.

Lemma clean_ignores_later_duplicate_witness :
  transaction_id (with_timestamp txn_A (Text "not a date"))
    = transaction_id txn_A
  ∧ clean sample_parser
      ([] ++ txn_A :: [txn_B] ++ with_timestamp txn_A (Text "not a date")
                                 :: [])
    = clean sample_parser ([] ++ txn_A :: [txn_B] ++ []).
Proof.
  split; [reflexivity|].
  exact (clean_ignores_later_duplicate sample_parser [] [txn_B] [] txn_A
           (with_timestamp txn_A (Text "not a date")) eq_refl).
Defined.

Lemma unseen_elem (seen : gset (option string)) (l1 l2 : list Transaction)
    (r : Transaction) :
  transaction_id r ∉ seen →
  (∀ r', r' ∈ l1 → transaction_id r' ≠ transaction_id r) →
  r ∈ unseen seen (l1 ++ r :: l2).
Proof.
  intros Hseen Hfirst. rewrite unseen_app, unseen_cons.
  apply elem_of_app. right. rewrite bool_decide_eq_false_2; [by left|].
  rewrite elem_of_union, elem_of_list_to_set.
  intros [(r' & Hid & Hr')%list_elem_of_fmap|?]; [|done].
  by apply (Hfirst r').
Qed.

Lemma survives_notna (parse_datetime : string → option Z) (r : Transaction) :
  survives parse_datetime r = true → notna_row r = true.
Proof.
  unfold survives, notna_row. simpl. rewrite !andb_true_iff.
  intros (((((Hid & Hts) & Ha) & Hm) & Hu) & Hf). repeat split; try done.
  destruct (timestamp r); [done..].
Qed.

Lemma NoDup_fmap_eq {A B} (g : A → B) (l : list A) (x y : A) :
  NoDup (g <$> l) → x ∈ l → y ∈ l → g x = g y → x = y.
Proof.
  induction l as [|z l IH]; csimpl; [by intros _ ?%elem_of_nil|].
  intros [Hz Hnd]%NoDup_cons [->|Hx]%elem_of_cons [->|Hy]%elem_of_cons Hg;
    try done.
  - destruct Hz. rewrite Hg. by apply list_elem_of_fmap_2.
  - destruct Hz. rewrite <- Hg. by apply list_elem_of_fmap_2.
  - by apply IH.
Qed.

(** X6: deduplication comes before the removal of missing values.  When
    the first row with some identifier has a missing value, that
    identifier is absent from the Cleaner's output, even if complete rows
    with the same identifier follow it in the input. *)
Theorem clean_drops_incomplete_first (parse_datetime : string → option Z)
    (l1 l2 out : list Transaction) (r : Transaction) :
  (∀ r', r' ∈ l1 → transaction_id r' ≠ transaction_id r) →
  notna_row r = false →
  clean parse_datetime (l1 ++ r :: l2) = Ok out →
  ∀ r', r' ∈ out → transaction_id r' ≠ transaction_id r.
Proof.
  intros Hfirst Hna Hout r' (r0 & Hr0 & Hs & ->)%(clean_row_origin _ _ _ _ Hout).
  change (transaction_id r0 ≠ transaction_id r). intros Hid.
  assert (r0 = r) as ->.
  { apply (NoDup_fmap_eq transaction_id (first_occurrences (l1 ++ r :: l2)));
      [apply unseen_NoDup|done| |done].
    apply unseen_elem; [apply not_elem_of_empty | done]. }
  apply survives_notna in Hs. congruence.
Qed.

Lemma clean_drops_incomplete_first_witness :
  (∀ r', r' ∈ [] → transaction_id r' ≠ transaction_id txn_A_no_amount)
  ∧ notna_row txn_A_no_amount = false
  ∧ clean sample_parser ([] ++ txn_A_no_amount :: [txn_A; txn_B])
    = Ok [with_timestamp txn_B (Instant (t0 + 30000000000))]
  ∧ ∀ r', r' ∈ [with_timestamp txn_B (Instant (t0 + 30000000000))] →
          transaction_id r' ≠ transaction_id txn_A_no_amount.
Proof.
  assert (∀ r', r' ∈ [] → transaction_id r' ≠ transaction_id txn_A_no_amount)
    as Hfirst by (intros r' Hr'; by apply elem_of_nil in Hr').
  assert (clean sample_parser ([] ++ txn_A_no_amount :: [txn_A; txn_B])
          = Ok [with_timestamp txn_B (Instant (t0 + 30000000000))]) as Hout
    by (vm_compute; reflexivity).
  split; [exact Hfirst|]. split; [reflexivity|]. split; [exact Hout|].
  exact (clean_drops_incomplete_first sample_parser [] [txn_A; txn_B] _
           txn_A_no_amount Hfirst eq_refl Hout).
Defined.



(** ** The Cleaner: repeated application *)

Lemma drop_while_snoc {A} (p : A → bool) (l : list A) (c : A) :
  p c = false → Text.drop_while p (l ++ [c]) = Text.drop_while p l ++ [c].
Proof.
  intros Hc. induction l as [|x l IH]; simpl; [by rewrite Hc|].
  by destruct (p x).
Qed.

Lemma lstrip_cases (l : list ascii) :
  Text.lstrip l = []
  ∨ ∃ c t, Text.lstrip l = c :: t ∧ Text.is_space c = false.
Proof.
  unfold Text.lstrip. induction l as [|x l IH]; simpl; [by left|].
  destruct (Text.is_space x) eqn:E; [done|]. right. eauto.
Qed.

Lemma rstrip_cons (c : ascii) (t : list ascii) :
  Text.is_space c = false → Text.rstrip (c :: t) = c :: Text.rstrip t.
Proof.
  intros Hc. unfold Text.rstrip, Text.lstrip. simpl.
  by rewrite drop_while_snoc, rev_app_distr.
Qed.

Lemma lstrip_idempotent (l : list ascii) :
  Text.lstrip (Text.lstrip l) = Text.lstrip l.
Proof.
  destruct (lstrip_cases l) as [->|(c & t & -> & Hc)]; [done|].
  unfold Text.lstrip. simpl. by rewrite Hc.
Qed.

Lemma rstrip_idempotent (l : list ascii) :
  Text.rstrip (Text.rstrip l) = Text.rstrip l.
Proof.
  unfold Text.rstrip. by rewrite rev_involutive, lstrip_idempotent.
Qed.

Lemma strip_idempotent (m : string) : Text.strip (Text.strip m) = Text.strip m.
Proof.
  unfold Text.strip. rewrite list_ascii_of_string_of_list_ascii. f_equal.
  destruct (lstrip_cases (list_ascii_of_string m))
    as [->|(c & t & -> & Hc)]; [done|].
  rewrite (rstrip_cons c t) by done.
  unfold Text.lstrip at 1. simpl. rewrite Hc.
  by rewrite !rstrip_cons, rstrip_idempotent.
Qed.

(** Cleaning what the Cleaner returned strips the merchants once more. *)
Lemma clean_output_again (parse_datetime : string → option Z)
    (l out : list Transaction) :
  clean parse_datetime l = Ok out →
  clean parse_datetime out = Ok (restripped <$> out).
Proof.
  intros Hout. pose proof (clean_NoDup _ _ _ Hout) as Hnd.
  assert (∀ r, r ∈ out →
            (∃ ns, timestamp r = Instant ns)
            ∧ survives parse_datetime r = true
            ∧ cleaned parse_datetime r = restripped r) as Hinv.
  { intros r (r0 & _ & Hs & ->)%(clean_row_origin _ _ _ _ Hout).
    by apply cleaned_again. }
  assert (first_occurrences out = out) as Hfirst.
  { apply unseen_all; [done|]. intros r _. apply not_elem_of_empty. }
  rewrite clean_succeeds, Hfirst.
  - rewrite filter_all by (intros r Hr; by apply Hinv). f_equal.
    apply list_fmap_ext. intros i r Hr%list_elem_of_lookup_2. by apply Hinv.
  - rewrite Hfirst. intros r x Hr Hx.
    destruct (Hinv r Hr) as [[ns Hns] _]. congruence.
Qed.

(** X7: the Cleaner settles at its second application: cleaning its
    output, and cleaning the result again, returns that result
    unchanged. *)
Theorem clean_settles (parse_datetime : string → option Z)
    (l out1 out2 : list Transaction) :
  clean parse_datetime l = Ok out1 →
  clean parse_datetime out1 = Ok out2 →
  clean parse_datetime out2 = Ok out2.
Proof.
  intros H1 H2. rewrite (clean_output_again _ _ _ H2). f_equal.
  rewrite (clean_output_again _ _ _ H1) in H2. injection H2 as <-.
  rewrite <- list_fmap_compose. apply list_fmap_ext.
  intros i [tid ts a [m|] u fr] _; [|done].
  unfold restripped. simpl. by rewrite strip_idempotent.
Qed.

Lemma clean_settles_witness :
  clean sample_parser [acme "Acme ."] = Ok [acme "Acme "]
  ∧ clean sample_parser [acme "Acme "] = Ok [acme "Acme"]
  ∧ clean sample_parser [acme "Acme"] = Ok [acme "Acme"].
Proof.
  assert (clean sample_parser [acme "Acme ."] = Ok [acme "Acme "]) as H1
    by (vm_compute; reflexivity).
  assert (clean sample_parser [acme "Acme "] = Ok [acme "Acme"]) as H2
    by (vm_compute; reflexivity).
  split; [exact H1|]. split; [exact H2|].
  exact (clean_settles sample_parser _ _ _ H1 H2).
Defined.

(** ** The Rule Engine: when it fails *)

Lemma traverse_raises {A B} (f : A → Result B) (l : list A) (x : A) :
  x ∈ l → (∃ e, f x = Raise e) → ∃ e, traverse f l = Raise e.
Proof.
  intros Hx [e He]. induction l as [|y l IH]; [by apply elem_of_nil in Hx|].
  simpl. destruct (f y) as [b|e'] eqn:Ey; simpl; [|eauto].
  apply elem_of_cons in Hx as [->|Hx]; [congruence|].
  destruct (IH Hx) as [e' ->]. simpl. eauto.
Qed.

(** X8: a frame whose timestamp column holds a text, one that has not
    been through the Cleaner's conversion, makes the Rule Engine raise: no
    row is scored. *)
Theorem score_raises_on_text (l : list Transaction) (r : Transaction)
    (x : string) :
  r ∈ l → timestamp r = Text x → ∃ e, score l = Raise e.
Proof.
  intros [i Hi]%list_elem_of_lookup_1 Hx. rewrite score_run.
  unfold rapid_transactions_flag, time_diff, total_seconds_between.
  destruct (lookup_lt_is_Some_2 (prev_transaction_time l) i) as [p Hp].
  { unfold prev_transaction_time. rewrite groupby_shift_length.
    by apply lookup_lt_Some in Hi. }
  destruct (traverse_raises (λ tp, seconds_between tp.1 tp.2)
              (zip (timestamp <$> l) (prev_transaction_time l))
              (Text x, p)) as [e ->]; [| |simpl; eauto].
  - apply (list_elem_of_lookup_2 _ i), lookup_zip_with_Some.
    exists (Text x), p. by rewrite list_lookup_fmap, Hi, Hp, <- Hx.
  - simpl. eauto.
Qed.

Lemma score_raises_on_text_witness :
  txn_B ∈ [with_timestamp txn_A (Instant t0); txn_B]
  ∧ timestamp txn_B = Text "2024-01-01 00:00:30"
  ∧ ∃ e, score [with_timestamp txn_A (Instant t0); txn_B] = Raise e.
Proof.
  assert (txn_B ∈ [with_timestamp txn_A (Instant t0); txn_B]) as Hin
    by apply list_elem_of_further, list_elem_of_here.
  split; [exact Hin|]. split; [reflexivity|].
  exact (score_raises_on_text _ txn_B _ Hin eq_refl).
Defined.

(** ** The Rule Engine: rule R3 on every input *)

(** X9: rule R3 looks at the nearest earlier row of the same user in the
    frame, whatever the timestamps.  For two rows of a user with no row of
    that user between them, R3 on the later row is true exactly when its
    timestamp is less than 60 seconds after that of the earlier row; in
    particular it is true when the later row is not later in time. *)
Theorem rapid_rule_previous_row (l : list Transaction) (rapid : list bool)
    (l1 l2 l3 : list Transaction) (a b : Transaction) (u : string)
    (t1 t2 : Z) :
  rapid_transactions_flag l = Ok rapid →
  l = l1 ++ a :: l2 ++ b :: l3 →
  user_id a = Some u → user_id b = Some u →
  (∀ r, r ∈ l2 → user_id r ≠ Some u) →
  timestamp a = Instant t1 → timestamp b = Instant t2 →
  rapid !! (length l1 + 1 + length l2)%nat = Some (rapid_after t1 t2)
  ∧ (t2 ≤ t1 → rapid !! (length l1 + 1 + length l2)%nat = Some true).
Proof.
  intros Hrapid -> Ha Hb Hl2 Hta Htb.
  assert (rapid !! (length l1 + 1 + length l2)%nat
          = Some (rapid_after t1 t2)) as Hflag.
  { destruct (rapid_transactions_flag_lookup _ _
                (length l1 + 1 + length l2) b (Instant t1) Hrapid)
      as (d & Hd & ->).
    - replace (l1 ++ a :: l2 ++ b :: l3) with ((l1 ++ a :: l2) ++ b :: l3)
        by by rewrite <- app_assoc.
      apply list_lookup_middle. rewrite length_app. simpl. lia.
    - rewrite <- Hta. by apply (prev_transaction_time_previous _ _ _ _ _ u).
    - rewrite Htb, seconds_between_instants in Hd. injection Hd as <-.
      by rewrite less_than_a_minute. }
  split; [done|]. intros Hle. rewrite Hflag. f_equal.
  unfold rapid_after, nanoseconds_per_second.
  apply bool_decide_eq_true_2. lia.
Qed.

Lemma rapid_rule_previous_row_witness :
  rapid_transactions_flag [u1_at "A" 100; u1_at "B" 0] = Ok [false; true]
  ∧ [u1_at "A" 100; u1_at "B" 0] = [] ++ u1_at "A" 100 :: [] ++ u1_at "B" 0 :: []
  ∧ user_id (u1_at "A" 100) = Some "U1"%string
  ∧ user_id (u1_at "B" 0) = Some "U1"%string
  ∧ (∀ r, r ∈ [] → user_id r ≠ Some "U1"%string)
  ∧ [false; true] !! (length (@nil Transaction) + 1
                      + length (@nil Transaction))%nat
    = Some (rapid_after (t0 + 100 * Z.pos nanoseconds_per_second)
              (t0 + 0 * Z.pos nanoseconds_per_second))
  ∧ (t0 + 0 * Z.pos nanoseconds_per_second
       ≤ t0 + 100 * Z.pos nanoseconds_per_second →
     [false; true] !! (length (@nil Transaction) + 1
                       + length (@nil Transaction))%nat = Some true).
Proof.
  assert (∀ r : Transaction, r ∈ [] → user_id r ≠ Some "U1"%string) as Hnone
    by (intros r Hr; by apply elem_of_nil in Hr).
  split; [vm_compute; reflexivity|]. split; [reflexivity|].
  split; [reflexivity|]. split; [reflexivity|]. split; [exact Hnone|].
  apply (rapid_rule_previous_row [u1_at "A" 100; u1_at "B" 0] [false; true]
           [] [] [] (u1_at "A" 100) (u1_at "B" 0) "U1");
    [vm_compute; reflexivity|reflexivity..|exact Hnone|reflexivity
    |reflexivity].
Defined.

(** X10: a row without user belongs to no group: rule R3 is false for it,
    even when rows without user come shortly before it. *)
Theorem rapid_rule_missing_user (l : list Transaction) (rapid : list bool)
    (i : nat) (r : Transaction) :
  rapid_transactions_flag l = Ok rapid →
  l !! i = Some r → user_id r = None →
  rapid !! i = Some false.
Proof.
  intros Hrapid Hr Hu.
  destruct (rapid_transactions_flag_lookup _ _ i r NaT Hrapid Hr)
    as (d & Hd & ->).
  - destruct (list_elem_of_split_length _ _ _ Hr) as (l1 & l2 & -> & ->).
    unfold prev_transaction_time. by rewrite groupby_shift_lookup, Hu.
  - destruct (timestamp r); simpl in Hd; by simplify_eq.
Qed.

Lemma rapid_rule_missing_user_witness :
  rapid_transactions_flag [anonymous_at "A" 0; anonymous_at "B" 10]
    = Ok [false; false]
  ∧ [anonymous_at "A" 0; anonymous_at "B" 10] !! 1%nat
    = Some (anonymous_at "B" 10)
  ∧ user_id (anonymous_at "B" 10) = None
  ∧ [false; false] !! 1%nat = Some false.
Proof.
  split; [vm_compute; reflexivity|]. split; [reflexivity|].
  split; [reflexivity|].
  apply (rapid_rule_missing_user [anonymous_at "A" 0; anonymous_at "B" 10]
           [false; false] 1 (anonymous_at "B" 10));
    [vm_compute; reflexivity|reflexivity..].
Defined.

(** ** The Rule Engine: what it reads *)

Lemma groupby_shift_view (last : gmap string Timestamp)
    (l l' : list Transaction) :
  scoring_view <$> l = scoring_view <$> l' →
  groupby_shift last l = groupby_shift last l'.
Proof.
  revert last l'. induction l as [|r l IH]; intros last [|r' l']; csimpl;
    try done.
  intros [= Ha Hm Hu Ht Hl]. rewrite Hu, Ht.
  destruct (user_id r'); f_equal; by apply IH.
Qed.

Lemma scoring_view_columns (l l' : list Transaction) :
  scoring_view <$> l = scoring_view <$> l' →
  amount <$> l = amount <$> l'
  ∧ merchant <$> l = merchant <$> l'
  ∧ timestamp <$> l = timestamp <$> l'.
Proof.
  intros Hview.
  assert (∀ {B} (g : _ → B),
            (g ∘ scoring_view) <$> l = (g ∘ scoring_view) <$> l') as Hg
      by (intros B g; by rewrite !list_fmap_compose, Hview).
  repeat split.
  - apply (Hg _ (λ v, v.1.1.1)).
  - apply (Hg _ (λ v, v.1.1.2)).
  - apply (Hg _ (λ v, v.2)).
Qed.

(** X11: the Rule Engine reads the amount, the merchant, the user and the
    timestamp of a row and nothing else: two frames that agree on these
    four columns get the same flags and the same scores, whatever their
    identifiers and their [is_fraud] labels. *)
Theorem score_ignores_labels (l l' : list Transaction)
    (out : list ScoredTransaction) :
  scoring_view <$> l = scoring_view <$> l' →
  score l = Ok out →
  ∃ out', score l' = Ok out'
          ∧ rule_based_fraud_flag <$> out' = rule_based_fraud_flag <$> out
          ∧ fraud_score <$> out' = fraud_score <$> out.
Proof.
  intros Hview. rewrite !score_run.
  destruct (scoring_view_columns _ _ Hview) as (Ha & Hm & Ht).
  assert (length l' = length l) as Hlen
      by (rewrite <- (length_fmap scoring_view l'), <- Hview;
          apply length_fmap).
  assert (rapid_transactions_flag l' = rapid_transactions_flag l) as ->.
  { unfold rapid_transactions_flag, time_diff, prev_transaction_time.
    by rewrite Ht, (groupby_shift_view _ _ _ Hview). }
  destruct (rapid_transactions_flag l) as [rapid|e] eqn:E; simpl; [|done].
  intros [= <-]. eexists. split; [done|].
  assert (combined_flag l' rapid = combined_flag l rapid) as Hflag
      by (unfold combined_flag, high_amount_flag, merchant_risk_flag;
          by rewrite Ha, Hm).
  assert (combined_score l' rapid = combined_score l rapid) as Hscore
      by (unfold combined_score, high_amount_flag, merchant_risk_flag;
          by rewrite Ha, Hm).
  pose proof (rapid_transactions_flag_length _ _ E) as Hrapid.
  pose proof (high_amount_flag_length l) as Hamount.
  pose proof (merchant_risk_flag_length l) as Hmerchant.
  assert (length (combined_flag l rapid) = length l) as Hf
      by (unfold combined_flag; rewrite !length_zip_with; lia).
  assert (length (combined_score l rapid) = length l) as Hs
      by (unfold combined_score; rewrite !length_zip_with, !length_fmap; lia).
  destruct (zip3_columns l _ _ Hf Hs) as (_ & -> & ->).
  rewrite Hflag, Hscore.
  destruct (zip3_columns l' (combined_flag l rapid) (combined_score l rapid))
    as (_ & -> & ->); [lia..|done].
Qed.

Lemma score_ignores_labels_witness :
  scoring_view <$> [u1_at "A" 0; u1_at "B" 59]
    = scoring_view <$> [u1_at "X" 0; u1_at "Y" 59]
  ∧ score [u1_at "A" 0; u1_at "B" 59]
    = Ok [mkScored (u1_at "A" 0) false 0; mkScored (u1_at "B" 59) true 1]
  ∧ ∃ out',
      score [u1_at "X" 0; u1_at "Y" 59] = Ok out'
      ∧ rule_based_fraud_flag <$> out'
        = rule_based_fraud_flag
            <$> [mkScored (u1_at "A" 0) false 0;
                 mkScored (u1_at "B" 59) true 1]
      ∧ fraud_score <$> out'
        = fraud_score
            <$> [mkScored (u1_at "A" 0) false 0;
                 mkScored (u1_at "B" 59) true 1].
Proof.
  split; [reflexivity|]. split; [vm_compute; reflexivity|].
  apply (score_ignores_labels [u1_at "A" 0; u1_at "B" 59]);
    [reflexivity | vm_compute; reflexivity].
Defined.

(** ** The Rule Engine: scoring a scored frame *)

Lemma assoc_get_app {V} (name : string) (l1 l2 : list (string * V)) :
  assoc_get name (l1 ++ l2)
  = match assoc_get name l1 with
    | Some v => Some v
    | None => assoc_get name l2
    end.
Proof.
  induction l1 as [|c l1 IH]; simpl; [done|]. by destruct (bool_decide _).
Qed.

Lemma assoc_set_app_fresh {V} (name : string) (v : V)
    (l1 l2 : list (string * V)) :
  assoc_get name l1 = None →
  assoc_set name v (l1 ++ l2) = l1 ++ assoc_set name v l2.
Proof.
  induction l1 as [|c l1 IH]; simpl; [done|].
  destruct (bool_decide (c.1 = name)); [done|]. intros H. by rewrite IH.
Qed.

Lemma with_scores_scored (g : DataFrame) (c : list (string * Series))
    (rapid : list bool) :
  columns g
  = c ++ [("rule_based_fraud_flag"%string,
           BoolSeries (combined_flag (rows g) rapid));
          ("fraud_score"%string, IntSeries (combined_score (rows g) rapid))] →
  assoc_get "prev_transaction_time" c = None →
  assoc_get "rule_based_fraud_flag" c = None →
  assoc_get "fraud_score" c = None →
  assoc_del "prev_transaction_time" (with_scores g rapid) = columns g.
Proof.
  intros Hcols Hprev Hflag Hscore. unfold with_scores, with_prev.
  rewrite Hcols.
  rewrite (assoc_set_fresh "prev_transaction_time")
    by by rewrite assoc_get_app, Hprev.
  rewrite <- app_assoc.
  rewrite (assoc_set_app_fresh "rule_based_fraud_flag") by done.
  rewrite (assoc_set_app_fresh "fraud_score") by done.
  rewrite assoc_del_app, assoc_del_fresh by done. reflexivity.
Qed.

(** X12: scoring a frame that the Rule Engine returned changes nothing:
    the two columns are assigned again where they are, with the same
    values, and the result is a new frame equal to the one given. *)
Theorem rescoring_changes_nothing (h : list DataFrame) (df : nat)
    (f : DataFrame) (out : nat) (h1 : list DataFrame) (res : Result nat)
    (h2 : list DataFrame) :
  h !! df = Some f →
  assoc_get "prev_transaction_time" (columns f) = None →
  assoc_get "rule_based_fraud_flag" (columns f) = None →
  assoc_get "fraud_score" (columns f) = None →
  apply_rule_based_detection df h = (Ok out, h1) →
  apply_rule_based_detection out h1 = (res, h2) →
  ∃ out2 f', res = Ok out2
             ∧ out2 ≠ out
             ∧ h1 !! out = Some f'
             ∧ h2 !! out2 = Some f'.
Proof.
  intros Hf Hprev Hflag Hscore.
  rewrite (apply_rule_based_detection_run _ _ _ Hf).
  destruct (rapid_transactions_flag (rows f)) as [rapid|e] eqn:Hrapid;
    [|done].
  rewrite with_scores_fresh by done. intros [= <- <-].
  set (f' := mkFrame (rows f) (columns f ++ _)).
  set (h1 := h ++ _).
  assert (h1 !! S (length h) = Some f') as Hf'.
  { unfold h1. rewrite lookup_app_r by lia.
    by replace (S (length h) - length h)%nat with 1%nat by lia. }
  rewrite (apply_rule_based_detection_run _ _ _ Hf').
  change (rows f') with (rows f). rewrite Hrapid.
  rewrite (with_scores_scored f' (columns f)) by done.
  intros [= <- <-]. exists (S (length h1)), f'.
  split; [done|]. split.
  - unfold h1. rewrite length_app. simpl. lia.
  - split; [done|]. rewrite lookup_app_r by lia.
    replace (S (length h1) - length h1)%nat with 1%nat by lia.
    reflexivity.
Qed.

Lemma rescoring_changes_nothing_witness :
  [source_frame scenario_cleaned] !! 0%nat
    = Some (source_frame scenario_cleaned)
  ∧ apply_rule_based_detection 0 [source_frame scenario_cleaned]
    = (Ok 2%nat,
       (apply_rule_based_detection 0 [source_frame scenario_cleaned]).2)
  ∧ ∃ out2 f',
      (apply_rule_based_detection 2
         (apply_rule_based_detection 0 [source_frame scenario_cleaned]).2).1
      = Ok out2
      ∧ out2 ≠ 2%nat
      ∧ (apply_rule_based_detection 0 [source_frame scenario_cleaned]).2
          !! 2%nat = Some f'
      ∧ (apply_rule_based_detection 2
           (apply_rule_based_detection 0
              [source_frame scenario_cleaned]).2).2 !! out2 = Some f'.
Proof.
  assert (apply_rule_based_detection 0 [source_frame scenario_cleaned]
          = (Ok 2%nat,
             (apply_rule_based_detection 0
                [source_frame scenario_cleaned]).2)) as Hfirst
    by (vm_compute; reflexivity).
  split; [reflexivity|]. split; [exact Hfirst|].
  apply (rescoring_changes_nothing [source_frame scenario_cleaned] 0
           (source_frame scenario_cleaned) 2
           (apply_rule_based_detection 0 [source_frame scenario_cleaned]).2);
    [reflexivity..|exact Hfirst|apply surjective_pairing].
Defined.

(** ** The pipeline as a composition of its stages *)

Lemma run_pipeline_stages (parse_datetime : string → option Z)
    (to_sql : DataFrame → Result unit) (l : list Transaction) :
  run (run_pipeline parse_datetime to_sql (source_frame l))
  = result_bind (clean parse_datetime l) (λ c,
      result_bind (rapid_transactions_flag c) (λ rapid,
        result_bind (to_sql (scored_frame c rapid)) (λ _,
          Ok (summary_of c rapid)))).
Proof.
  unfold run, run_pipeline, ingest_data. rewrite alloc_bind, bind_run.
  rewrite (clean_data_run _ _ (source_frame l)) by apply lookup_snoc.
  rewrite clean_run.
  change (rows (deduplicated (source_frame l))) with (first_occurrences l).
  destruct (to_datetime _ _) as [ts|e]; [|done].
  cbv beta iota zeta. simpl result_bind.
  set (c := normalized <$> List.filter notna_row
              (zip_with with_timestamp (first_occurrences l) ts)).
  set (h2 := ([] ++ [source_frame l]) ++ _).
  assert (h2 !! S (length ([] ++ [source_frame l]))
          = Some (source_frame c)) as Hclean.
  { unfold h2, c. simpl. f_equal. apply dropna_source_frame. }
  rewrite bind_run, (apply_rule_based_detection_run _ _ _ Hclean).
  change (rows (source_frame c)) with c.
  destruct (rapid_transactions_flag c) as [rapid|e]; [|done].
  cbv beta iota. unfold store_in_database.
  rewrite with_scores_fresh by done.
  change (mkFrame c (columns (source_frame c) ++ _))
    with (scored_frame c rapid).
  set (h4 := h2 ++ _).
  assert (h4 !! S (length h2) = Some (scored_frame c rapid)) as Hout.
  { unfold h4. rewrite lookup_app_r by lia.
    by replace (S (length h2) - length h2)%nat with 1%nat by lia. }
  rewrite bind_assoc, (read_bind _ _ _ _ Hout), lift_bind.
  simpl result_bind. destruct (to_sql _); [|done].
  by rewrite (summary_statistics_run _ (scored_frame c rapid)
                (combined_flag c rapid) (combined_score c rapid)).
Qed.

Lemma clean_output_parsed (parse_datetime : string → option Z)
    (l out : list Transaction) :
  clean parse_datetime l = Ok out →
  ∀ r x, r ∈ out → timestamp r ≠ Text x.
Proof.
  intros Hout r x (r0 & _ & Hs & ->)%(clean_row_origin _ _ _ _ Hout).
  destruct (cleaned_again _ _ Hs) as ([ns ->] & _). done.
Qed.

(** X13: the pipeline is the composition of its stages.  When the Cleaner
    raises, the pipeline raises the same exception.  When the Cleaner
    returns, the Rule Engine returns as well; the store is given the
    cleaned rows with the two added columns and nothing else; the pipeline
    raises what the store raises, and returns the summary of those rows
    when the store accepts them. *)
Theorem run_pipeline_outcome (parse_datetime : string → option Z)
    (to_sql : DataFrame → Result unit) (l : list Transaction) :
  (∀ e, clean parse_datetime l = Raise e →
        run (run_pipeline parse_datetime to_sql (source_frame l)) = Raise e)
  ∧ ∀ c, clean parse_datetime l = Ok c →
      ∃ rapid,
        rapid_transactions_flag c = Ok rapid
        ∧ run (run_pipeline parse_datetime to_sql (source_frame l))
          = match to_sql (scored_frame c rapid) with
            | Ok _ => Ok (summary_of c rapid)
            | Raise e => Raise e
            end.
Proof.
  rewrite run_pipeline_stages. split.
  - by intros e ->.
  - intros c Hc.
    destruct (rapid_transactions_flag_total c
                (clean_output_parsed _ _ _ Hc)) as [rapid Hrapid].
    exists rapid. split; [done|]. rewrite Hc. simpl. by rewrite Hrapid.
Qed.

(** ** The summary: bounds *)

Lemma sum_bool_bounds (s : list bool) :
  0 ≤ sum_bool s ≤ Z.of_nat (length s).
Proof. induction s as [|[] s IH]; simpl; lia. Qed.

Lemma sum_option_bool_bounds (s : list (option bool)) :
  0 ≤ sum_option_bool s ≤ Z.of_nat (length s).
Proof. induction s as [|[[]|] s IH]; simpl; lia. Qed.

Lemma high_risk_le_flagged (h m r : list bool) :
  sum_bool ((λ n, 2 <=? n)
              <$> zip_with Z.add (zip_with Z.add (Z.b2z <$> h) (Z.b2z <$> m))
                    (Z.b2z <$> r))
  ≤ sum_bool (zip_with orb (zip_with orb h m) r).
Proof.
  revert m r. induction h as [|a h IH]; intros [|b m] [|c r]; csimpl;
    try done.
  specialize (IH m r). destruct a, b, c; simpl; lia.
Qed.

(** X14: in every summary that the pipeline returns the counts are
    ordered: the high-risk rows are among the flagged rows, the flagged
    rows and the rows labelled as fraud are among all rows, and no count
    is negative. *)
Theorem summary_bounds (parse_datetime : string → option Z)
    (to_sql : DataFrame → Result unit) (l : list Transaction) (s : Summary) :
  run (run_pipeline parse_datetime to_sql (source_frame l)) = Ok s →
  0 ≤ high_risk_transactions s ≤ rule_based_flags s
  ∧ rule_based_flags s ≤ total_records s
  ∧ 0 ≤ original_fraud_flags s ≤ total_records s
  ∧ total_records s ≤ Z.of_nat (length l).
Proof.
  rewrite run_pipeline_stages.
  destruct (clean parse_datetime l) as [c|e] eqn:Hc; simpl; [|done].
  destruct (rapid_transactions_flag c) as [rapid|e] eqn:Hrapid; simpl;
    [|done].
  destruct (to_sql _); simpl; [|done]. intros [= <-]. simpl.
  pose proof (rapid_transactions_flag_length _ _ Hrapid) as Hlen.
  pose proof (high_amount_flag_length c) as Hamount.
  pose proof (merchant_risk_flag_length c) as Hmerchant.
  assert (length (combined_flag c rapid) = length c) as Hflag
      by (unfold combined_flag; rewrite !length_zip_with; lia).
  pose proof (sum_bool_bounds (combined_flag c rapid)) as Hb.
  pose proof (sum_bool_bounds ((λ n, 2 <=? n) <$> combined_score c rapid))
    as Hh.
  pose proof (sum_option_bool_bounds (is_fraud <$> c)) as Ho.
  rewrite length_fmap in Ho.
  pose proof (high_risk_le_flagged (high_amount_flag c)
                (merchant_risk_flag c) rapid) as Hle.
  assert (length c ≤ length l)%nat as Hrows.
  { apply clean_ok in Hc as ->. rewrite length_fmap.
    etrans; [apply sublist_length, filter_sublist|].
    apply sublist_length, unseen_sublist. }
  unfold combined_flag, combined_score in *. lia.
Qed.

Lemma summary_bounds_witness :
  run (run_pipeline sample_parser (λ _, Ok ()) (source_frame scenario))
    = Ok (mkSummary 2 0 2 1)
  ∧ 0 ≤ high_risk_transactions (mkSummary 2 0 2 1)
      ≤ rule_based_flags (mkSummary 2 0 2 1)
  ∧ rule_based_flags (mkSummary 2 0 2 1) ≤ total_records (mkSummary 2 0 2 1)
  ∧ 0 ≤ original_fraud_flags (mkSummary 2 0 2 1)
      ≤ total_records (mkSummary 2 0 2 1)
  ∧ total_records (mkSummary 2 0 2 1) ≤ Z.of_nat (length scenario).
Proof.
  split; [vm_compute; reflexivity|].
  apply (summary_bounds sample_parser (λ _, Ok ()) scenario).
  vm_compute; reflexivity.
Defined.
